(** * CumulusCI [tasks/metadata/modify.py]: removal of elements by XPath and
      the Salesforce-flavoured serializer

    The development follows the Python module top-down:

    - [Py]: the handful of [str] primitives the module relies on
      ([replace], [in], [split], [join]) and [xml.sax.saxutils.escape];
    - [Tree]: the lxml tree as the module observes it (tag, attrib, text,
      children, tail; comments);
    - [Serializer]: [has_content] and [salesforce_encoding], written as the
      loop over [iterwalk] events that the source runs;
    - [Xml], [XPath]: executable models of the parser and of the path queries
      for the fragment of XML / XPath the statements need;
    - [Task]: [_init_options], [_process_element], [_run_task] over an
      explicit file store and log.

    Python [str] values are modelled as [string]; a file's bytes are the
    UTF-8 image of the text, which for the 7-bit documents accepted by the
    parser model is the identity. *)

From Stdlib Require Import String Ascii List Bool Arith Lia DecimalString.
Import ListNotations.
Local Open Scope string_scope.

(** Two characters that are awkward inside literals. *)
Definition dq : string := String "034"%char EmptyString.
Definition nl : string := String "010"%char EmptyString.

(** ** Python primitives *)
Module Py.

(** [s.replace(old, new)] for a one-character [old]: every call in the
    module (all inside [escape]) has a one-character pattern. *)
Fixpoint replace (old : ascii) (new : string) (s : string) : string :=
  match s with
  | EmptyString => EmptyString
  | String c s' =>
      if Ascii.eqb c old then new ++ replace old new s'
      else String c (replace old new s')
  end.

(** [sub in s] *)
Fixpoint contains (sub s : string) : bool :=
  if String.prefix sub s then true
  else match s with
       | EmptyString => false
       | String _ s' => contains sub s'
       end.

(** [s.split(sep)] for a one-character separator. *)
Fixpoint split (sep : ascii) (s : string) : list string :=
  match s with
  | EmptyString => [EmptyString]
  | String c s' =>
      if Ascii.eqb c sep then EmptyString :: split sep s'
      else match split sep s' with
           | p :: ps => String c p :: ps
           | [] => [String c EmptyString]
           end
  end.

(** [sep.join(parts)] *)
Definition join (sep : string) (parts : list string) : string :=
  String.concat sep parts.

(** Truth value of an optional [str] ([None] and the empty string are
    false). *)
Definition truthy (o : option string) : bool :=
  match o with
  | Some (String _ _) => true
  | _ => false
  end.

(** [xml.sax.saxutils.__dict_replace]: the replacements are applied one
    after the other, in the dictionary's order. *)
Definition dict_replace (s : string) (d : list (ascii * string)) : string :=
  fold_left (fun acc kv => replace (fst kv) (snd kv) acc) d s.

(** [xml.sax.saxutils.escape(data, entities)]: ampersand first, then [>],
    then [<], then the caller's dictionary. *)
Definition escape (data : string) (entities : list (ascii * string)) : string :=
  let data := replace "&" "&amp;" data in
  let data := replace ">" "&gt;" data in
  let data := replace "<" "&lt;" data in
  match entities with
  | [] => data
  | _ => dict_replace data entities
  end.

End Py.

(** ** The tree, as lxml presents it to the module *)
Module Tree.

(** A comment node: its text and the text that follows it. *)
Record comment : Type := mkComment { ctext : string; ctail : option string }.

(** An element: [tag] is lxml's string, [{uri}local] when the element is in
    a namespace; [nsdecl] lists the namespace declarations the element
    introduces (they are not attributes in lxml); [attrib] keeps insertion
    order; [text] and [tail] may be [None].  Processing instructions and
    entity nodes, which the module never looks at, are not part of the
    model. *)
Inductive element : Type :=
  mkElement (tag : string) (nsdecl : list (string * string))
            (attrib : list (string * string)) (text : option string)
            (children : list node) (tail : option string)
with node : Type :=
| NElem (e : element)
| NComment (c : comment).

Definition tag (e : element) : string :=
  match e with mkElement t _ _ _ _ _ => t end.
Definition nsdecl (e : element) : list (string * string) :=
  match e with mkElement _ n _ _ _ _ => n end.
Definition attrib (e : element) : list (string * string) :=
  match e with mkElement _ _ a _ _ _ => a end.
Definition text (e : element) : option string :=
  match e with mkElement _ _ _ x _ _ => x end.
Definition children (e : element) : list node :=
  match e with mkElement _ _ _ _ c _ => c end.
Definition tail (e : element) : option string :=
  match e with mkElement _ _ _ _ _ t => t end.

Definition set_tail (t : option string) (e : element) : element :=
  match e with mkElement g n a x c _ => mkElement g n a x c t end.
Definition set_attrib (a : list (string * string)) (e : element) : element :=
  match e with mkElement g n _ x c t => mkElement g n a x c t end.
Definition set_children (c : list node) (e : element) : element :=
  match e with mkElement g n a x _ t => mkElement g n a x c t end.

(** [elem.attrib[k] = v]: an existing attribute keeps its place and takes
    the new value, a new one goes last. *)
Fixpoint attrib_set (k v : string) (a : list (string * string))
  : list (string * string) :=
  match a with
  | [] => [(k, v)]
  | (k', v') :: a' =>
      if String.eqb k' k then (k', v) :: a'
      else (k', v') :: attrib_set k v a'
  end.

(** [elem.attrib.get(k)] *)
Fixpoint attrib_get (k : string) (a : list (string * string)) : option string :=
  match a with
  | [] => None
  | (k', v') :: a' => if String.eqb k' k then Some v' else attrib_get k a'
  end.

(** An [ElementTree]: the model keeps the root element only (a document's
    top-level comments and processing instructions are outside it). *)
Record ElementTree : Type := mkTree { getroot : element }.

(** Elements are located by the child indices that lead to them. *)
Fixpoint element_at (p : list nat) (e : element) : option element :=
  match p with
  | [] => Some e
  | i :: p' =>
      match nth_error (children e) i with
      | Some (NElem c) => element_at p' c
      | _ => None
      end
  end.

Fixpoint map_at {A : Type} (i : nat) (f : A -> A) (l : list A) : list A :=
  match l, i with
  | [], _ => []
  | x :: l', 0 => f x :: l'
  | x :: l', S j => x :: map_at j f l'
  end.

(** The tree with [f] applied to the element located at [p]. *)
Fixpoint update_at (p : list nat) (f : element -> element) (e : element)
  : element :=
  match p with
  | [] => f e
  | i :: p' =>
      set_children
        (map_at i (fun n => match n with
                            | NElem c => NElem (update_at p' f c)
                            | NComment _ => n
                            end) (children e)) e
  end.

(** [All P cs]: [P] holds of every element among the nodes [cs]. *)
Fixpoint All (P : element -> Prop) (cs : list node) : Prop :=
  match cs with
  | [] => True
  | NElem c :: cs' => P c /\ All P cs'
  | NComment _ :: cs' => All P cs'
  end.

(** Induction over an element, with the hypothesis available for every
    element among its children. *)
Section Induction.
Variable P : element -> Prop.
Hypothesis step :
  forall g n a x cs t, All P cs -> P (mkElement g n a x cs t).

Fixpoint element_induction (e : element) : P e :=
  match e with
  | mkElement g n a x cs t =>
      step g n a x cs t
        ((fix go (l : list node) : All P l :=
            match l with
            | [] => I
            | NElem c :: l' => conj (element_induction c) (go l')
            | NComment _ :: l' => go l'
            end) cs)
  end.
End Induction.

End Tree.
Import Tree.

(** ** The serializer: [has_content] and [salesforce_encoding] *)
Module Serializer.

Definition xml_encoding : string :=
  "<?xml version=" ++ dq ++ "1.0" ++ dq ++ " encoding=" ++ dq ++ "UTF-8" ++ dq
  ++ "?>" ++ nl.

Definition SF_NS : string := "http://soap.sforce.com/2006/04/metadata".

(** [element.text or list(element)], as a truth value. *)
Definition has_content (element : element) : bool :=
  Py.truthy (text element)
  || match children element with [] => false | _ :: _ => true end.

(** The events requested from [ET.iterwalk]. *)
Inductive event : Type :=
| EvStartNs (prefix uri : string)
| EvStart (elem : element)
| EvEnd (elem : element)
| EvEndNs
| EvComment (elem : comment).

(** [ET.iterwalk(xdoc, events=(start, end, start-ns, end-ns, comment))]:
    depth first; an element's namespace declarations are announced before
    its [start] and closed after its [end]. *)
Fixpoint iterwalk (e : element) : list event :=
  let fix nodes (ns : list node) : list event :=
    match ns with
    | [] => []
    | NElem c :: ns' => (iterwalk c ++ nodes ns')%list
    | NComment c :: ns' => EvComment c :: nodes ns'
    end in
  (map (fun d => EvStartNs (fst d) (snd d)) (nsdecl e)
   ++ EvStart e :: nodes (children e)
   ++ EvEnd e :: map (fun _ => EvEndNs) (nsdecl e))%list.

Definition iterwalk_nodes : list node -> list event :=
  fix nodes (ns : list node) : list event :=
    match ns with
    | [] => []
    | NElem c :: ns' => (iterwalk c ++ nodes ns')%list
    | NComment c :: ns' => EvComment c :: nodes ns'
    end.

(** [tag.split(rbrace)[1]] under the guard [rbrace in tag]. *)
Definition local_tag (tag : string) : string :=
  if Py.contains "}" tag then nth 1 (Py.split "}" tag) EmptyString else tag.

(** The dictionary handed to [escape]. *)
Definition entities : list (ascii * string) :=
  [("'"%char, "&apos;"); ("034"%char, "&quot;")].

(** The list comprehension joined into [attrs]. *)
Definition attrs_of (a : list (string * string)) : string :=
  Py.join EmptyString
    (map (fun kv => " " ++ fst kv ++ "=" ++ dq ++ snd kv ++ dq) a).

(** [x if x else d] on an optional [str]. *)
Definition or_else (o : option string) (d : string) : string :=
  if Py.truthy o then match o with Some s => s | None => d end else d.

(** [str(elem)] of a comment node. *)
Definition str_comment (c : comment) : string := "<!--" ++ ctext c ++ "-->".

(** One turn of the loop of [salesforce_encoding]: the accumulator [r]
    after the event. *)
Definition on_event (r : string) (ev : event) : string :=
  match ev with
  | EvStartNs _ _ => r
  | EvStart elem =>
      let tag := local_tag (tag elem) in
      let text := match text elem with
                  | Some t => Py.escape t entities
                  | None => EmptyString
                  end in
      let attrs := attrs_of (attrib elem) in
      if negb (has_content elem)
      then r ++ ("<" ++ tag ++ attrs ++ "/>")
      else r ++ ("<" ++ tag ++ attrs ++ ">" ++ text)
  | EvEnd elem =>
      if has_content elem
      then
        let tag := local_tag (tag elem) in
        let tail := or_else (tail elem) nl in
        r ++ ("</" ++ tag ++ ">" ++ tail)
      else r
  | EvEndNs => r
  | EvComment elem => r ++ (str_comment elem ++ or_else (ctail elem) EmptyString)
  end.

(** The assignment [xdoc.getroot().attrib[xmlns] = SF_NS] under its guard. *)
Definition force_xmlns (xdoc : ElementTree) : ElementTree :=
  let root := getroot xdoc in
  if Py.contains SF_NS (tag root)
  then mkTree (set_attrib (attrib_set "xmlns" SF_NS (attrib root)) root)
  else xdoc.

(** [salesforce_encoding(xdoc)]: the document as the call leaves it, and the
    returned text. *)
Definition salesforce_encoding (xdoc : ElementTree) : ElementTree * string :=
  let xdoc := force_xmlns xdoc in
  (xdoc, fold_left on_event (iterwalk (getroot xdoc)) xml_encoding).

(** What one element contributes to the output: the events of its subtree
    run from an empty accumulator. *)
Definition emit (e : element) : string :=
  fold_left on_event (iterwalk e) EmptyString.

(** *** A recursive reading of the loop *)

Definition open_tag (e : element) : string :=
  "<" ++ local_tag (tag e) ++ attrs_of (attrib e).

Definition escaped_text (e : element) : string :=
  match text e with
  | Some t => Py.escape t entities
  | None => EmptyString
  end.

Definition close_tag (e : element) : string :=
  "</" ++ local_tag (tag e) ++ ">" ++ or_else (tail e) nl.

Definition render_comment (c : comment) : string :=
  str_comment c ++ or_else (ctail c) EmptyString.

Fixpoint render (e : element) : string :=
  let fix nodes (ns : list node) : string :=
    match ns with
    | [] => EmptyString
    | NElem c :: ns' => render c ++ nodes ns'
    | NComment c :: ns' => render_comment c ++ nodes ns'
    end in
  if has_content e
  then open_tag e ++ ">" ++ escaped_text e ++ nodes (children e) ++ close_tag e
  else open_tag e ++ "/>".

Definition render_nodes : list node -> string :=
  fix nodes (ns : list node) : string :=
    match ns with
    | [] => EmptyString
    | NElem c :: ns' => render c ++ nodes ns'
    | NComment c :: ns' => render_comment c ++ nodes ns'
    end.

End Serializer.
Import Serializer.

(** ** A model of the parser behind [ET.parse]

    The model accepts a fragment of well-formed XML over 7-bit characters:
    an optional declaration (exactly the one the serializer writes), one root
    element, elements with double-quoted attributes written [name=value]
    without blanks around the sign, an optional default namespace declaration
    [xmlns], the five predefined entities, comments, and character data
    without a raw [>].  Prefixed names, single-quoted values, character
    references, CDATA, processing instructions, DOCTYPE and carriage returns
    are refused, as is everything malformed: [None] means "not in the
    fragment", and on what it accepts the model builds the tree lxml builds
    (blank text kept, comments kept as children, attribute order kept, root
    tail [None]). *)
Module Xml.

Notation "'do' x <- e ; k" :=
  (match e with Some x => k | None => None end)
    (at level 10, x pattern, e at level 100, k at level 200).

Definition in_range (lo hi : nat) (c : ascii) : bool :=
  Nat.leb lo (nat_of_ascii c) && Nat.leb (nat_of_ascii c) hi.

Definition is_ws (c : ascii) : bool :=
  Ascii.eqb c " " || Ascii.eqb c "009" || Ascii.eqb c "010".

Definition is_name_start (c : ascii) : bool :=
  in_range 65 90 c || in_range 97 122 c || Ascii.eqb c "_".

Definition is_name_char (c : ascii) : bool :=
  is_name_start c || in_range 48 57 c || Ascii.eqb c "-" || Ascii.eqb c ".".

Definition is_plain (c : ascii) : bool :=
  in_range 32 126 c || Ascii.eqb c "009" || Ascii.eqb c "010".

(** Characters allowed raw in character data ([&] introduces a reference). *)
Definition is_text_char (c : ascii) : bool :=
  is_plain c && negb (Ascii.eqb c "<") && negb (Ascii.eqb c ">").

(** Characters allowed raw inside a double-quoted attribute value. *)
Definition is_value_char (c : ascii) : bool :=
  in_range 32 126 c && negb (Ascii.eqb c "<") && negb (Ascii.eqb c "034").

Fixpoint forallb_string (p : ascii -> bool) (s : string) : bool :=
  match s with
  | EmptyString => true
  | String c s' => p c && forallb_string p s'
  end.

(** Longest prefix of characters satisfying [p], and the rest. *)
Fixpoint span (p : ascii -> bool) (s : string) : string * string :=
  match s with
  | EmptyString => (EmptyString, EmptyString)
  | String c s' =>
      if p c then let (a, b) := span p s' in (String c a, b)
      else (EmptyString, s)
  end.

Definition skip_ws (s : string) : string := snd (span is_ws s).

Fixpoint strip_prefix (p s : string) : option string :=
  match p with
  | EmptyString => Some s
  | String a p' =>
      match s with
      | String b s' => if Ascii.eqb a b then strip_prefix p' s' else None
      | EmptyString => None
      end
  end.

Definition entity_of (name : string) : option ascii :=
  if String.eqb name "amp" then Some "&"%char
  else if String.eqb name "lt" then Some "<"%char
  else if String.eqb name "gt" then Some ">"%char
  else if String.eqb name "apos" then Some "'"%char
  else if String.eqb name "quot" then Some "034"%char
  else None.

(** Replaces the predefined entity references; [pending] holds the name
    being read after an ampersand. *)
Fixpoint unescape_from (pending : option string) (s : string) : option string :=
  match s with
  | EmptyString =>
      match pending with None => Some EmptyString | Some _ => None end
  | String c s' =>
      match pending with
      | None =>
          if Ascii.eqb c "&" then unescape_from (Some EmptyString) s'
          else do t <- unescape_from None s'; Some (String c t)
      | Some name =>
          if Ascii.eqb c ";" then
            do d <- entity_of name;
            do t <- unescape_from None s'; Some (String d t)
          else unescape_from (Some (name ++ String c EmptyString)) s'
      end
  end.

Definition unescape (s : string) : option string := unescape_from None s.

Definition to_opt (s : string) : option string :=
  match s with EmptyString => None | String _ _ => Some s end.

(** A name without colon. *)
Definition parse_name (s : string) : option (string * string) :=
  let (n, r) := span is_name_char s in
  match n with
  | String c _ => if is_name_start c then Some (n, r) else None
  | EmptyString => None
  end.

(** The value of an attribute, after its opening quote. *)
Definition parse_value (s : string) : option (string * string) :=
  let (raw, r) := span (fun c => negb (Ascii.eqb c "034")) s in
  match r with
  | String _ r' =>
      if forallb_string is_value_char raw
      then do v <- unescape raw; Some (v, r')
      else None
  | EmptyString => None
  end.

(** The attributes of a start tag, up to its closing [>] or [/>]. *)
Fixpoint parse_attrs (fuel : nat) (s : string)
  : option (list (string * string) * string) :=
  match fuel with
  | 0 => None
  | S fuel' =>
      let (w, r) := span is_ws s in
      match r with
      | EmptyString => None
      | String c _ =>
          if Ascii.eqb c "/" || Ascii.eqb c ">" then Some ([], r)
          else
            match w with
            | EmptyString => None
            | String _ _ =>
                do (k, r1) <- parse_name r;
                do r2 <- strip_prefix "=" r1;
                do r3 <- strip_prefix dq r2;
                do (v, r4) <- parse_value r3;
                do (rest, r5) <- parse_attrs fuel' r4;
                Some ((k, v) :: rest, r5)
            end
      end
  end.

(** Character data up to the next markup. *)
Definition chardata (s : string) : option (string * string) :=
  let (raw, r) := span (fun c => negb (Ascii.eqb c "<")) s in
  if forallb_string is_text_char raw
  then do t <- unescape raw; Some (t, r)
  else None.

(** The text of a comment, after its opening: up to the first double dash. *)
Fixpoint until_dashes (s : string) : option (string * string) :=
  match s with
  | EmptyString => None
  | String c s' =>
      let continue :=
        do (t, r) <- until_dashes s'; Some (String c t, r) in
      if Ascii.eqb c "-" then
        match s' with
        | String d r => if Ascii.eqb d "-" then Some (EmptyString, r) else continue
        | EmptyString => None
        end
      else continue
  end.

Fixpoint nodup_keys (a : list (string * string)) : bool :=
  match a with
  | [] => true
  | (k, _) :: a' =>
      negb (existsb (fun kv => String.eqb (fst kv) k) a') && nodup_keys a'
  end.

(** lxml's tag for a name in the default namespace [ns] ([EmptyString]: no
    namespace). *)
Definition qualify (ns name : string) : string :=
  match ns with
  | EmptyString => name
  | String _ _ => "{" ++ ns ++ "}" ++ name
  end.

Definition not_xmlns (kv : string * string) : bool :=
  negb (String.eqb (fst kv) "xmlns").

(** What a start tag says: the name, the default namespace in force inside
    the element, the declaration the tag makes, and the attributes proper. *)
Record start_tag : Type := mkStartTag {
  st_name : string;
  st_ns : string;
  st_nsdecl : list (string * string);
  st_attrib : list (string * string)
}.

(** A start tag up to, and without, its closing [>] or [/>]; [ns] is the
    default namespace around the element. *)
Definition parse_start_tag (ns : string) (s : string)
  : option (start_tag * string) :=
  do s1 <- strip_prefix "<" s;
  do (name, s2) <- parse_name s1;
  do (raw, s3) <- parse_attrs (S (String.length s2)) s2;
  if negb (nodup_keys raw) then None else
  match attrib_get "xmlns" raw with
  | Some EmptyString => None
  | Some v => Some (mkStartTag name v [(EmptyString, v)] (filter not_xmlns raw), s3)
  | None => Some (mkStartTag name ns [] (filter not_xmlns raw), s3)
  end.

(** The end tag of the element called [name]. *)
Definition parse_end_tag (name : string) (s : string) : option string :=
  do s1 <- strip_prefix "</" s;
  do (name', s2) <- parse_name s1;
  if String.eqb name' name then strip_prefix ">" (skip_ws s2) else None.

(** A comment: its text, and what follows it. *)
Definition parse_comment (s : string) : option (string * string) :=
  do s1 <- strip_prefix "<!--" s;
  do (c, s2) <- until_dashes s1;
  do s3 <- strip_prefix ">" s2;
  if forallb_string is_plain c then Some (c, s3) else None.

(** [parse_element fuel ns s] reads one element at the head of [s] (its tail
    is left to the caller); [parse_nodes fuel ns s] reads the nodes of an
    element's content, each with its tail, up to the end tag. *)
Fixpoint parse_element (fuel : nat) (ns : string) (s : string)
  : option (element * string) :=
  match fuel with
  | 0 => None
  | S fuel' =>
      do (st, s1) <- parse_start_tag ns s;
      let tag := qualify (st_ns st) (st_name st) in
      match strip_prefix "/>" s1 with
      | Some s2 =>
          Some (mkElement tag (st_nsdecl st) (st_attrib st) None [] None, s2)
      | None =>
          do s2 <- strip_prefix ">" s1;
          do (txt, s3) <- chardata s2;
          do (kids, s4) <- parse_nodes fuel' (st_ns st) s3;
          do s5 <- parse_end_tag (st_name st) s4;
          Some (mkElement tag (st_nsdecl st) (st_attrib st) (to_opt txt) kids
                  None, s5)
      end
  end

with parse_nodes (fuel : nat) (ns : string) (s : string)
  : option (list node * string) :=
  match fuel with
  | 0 => None
  | S fuel' =>
      if String.prefix "</" s then Some ([], s)
      else if String.prefix "<!--" s then
        do (c, s1) <- parse_comment s;
        do (tl, s2) <- chardata s1;
        do (rest, s3) <- parse_nodes fuel' ns s2;
        Some (NComment (mkComment c (to_opt tl)) :: rest, s3)
      else
        do (e, s1) <- parse_element fuel' ns s;
        do (tl, s2) <- chardata s1;
        do (rest, s3) <- parse_nodes fuel' ns s2;
        Some (NElem (set_tail (to_opt tl) e) :: rest, s3)
  end.

(** The declaration accepted at the head of a document. *)
Definition xml_decl : string :=
  "<?xml version=" ++ dq ++ "1.0" ++ dq ++ " encoding=" ++ dq ++ "UTF-8" ++ dq
  ++ "?>".

(** [ET.parse] on the bytes of a file. *)
Definition parse (s : string) : option ElementTree :=
  let s1 := match strip_prefix xml_decl s with Some r => r | None => s end in
  let s2 := skip_ws s1 in
  do (root, s3) <- parse_element (S (String.length s2)) EmptyString s2;
  match skip_ws s3 with
  | EmptyString => Some (mkTree root)
  | String _ _ => None
  end.

End Xml.

(** ** A model of [xpath] for absolute location paths

    The fragment: one or more steps, each introduced by a single or a double
    slash and made of a name test (a star, a local name, or [prefix:local]
    with the prefix looked up in the [namespaces] argument).  Predicates,
    functions, other axes and relative paths are outside it ([None]).  Nodes
    are identified by their position: the list of child indices leading to
    them from the root element. *)
Module XPath.
Import Xml.

Inductive axis : Type := Child | Descendant.
Inductive test : Type := AnyElement | Named (tag : string).
Definition step : Type := (axis * test)%type.
Definition position : Type := list nat.

Definition is_ncname (s : string) : bool :=
  match s with
  | String c _ => is_name_start c && forallb_string is_name_char s
  | EmptyString => false
  end.

Definition parse_test (namespaces : list (string * string)) (s : string)
  : option test :=
  if String.eqb s "*" then Some AnyElement
  else
    match Py.split ":" s with
    | [l] => if is_ncname l then Some (Named l) else None
    | [p; l] =>
        if is_ncname p && is_ncname l
        then do uri <- attrib_get p namespaces;
             Some (Named ("{" ++ uri ++ "}" ++ l))
        else None
    | _ => None
    end.

(** The pieces between slashes: an empty piece announces a double slash. *)
Fixpoint parse_steps (namespaces : list (string * string))
  (pieces : list string) : option (list step) :=
  match pieces with
  | [] => Some []
  | EmptyString :: rest =>
      match rest with
      | [] => None
      | p :: rest' =>
          do t <- parse_test namespaces p;
          do r <- parse_steps namespaces rest';
          Some ((Descendant, t) :: r)
      end
  | p :: rest =>
      do t <- parse_test namespaces p;
      do r <- parse_steps namespaces rest;
      Some ((Child, t) :: r)
  end.

Definition compile (namespaces : list (string * string)) (query : string)
  : option (list step) :=
  match Py.split "/" query with
  | EmptyString :: pieces =>
      match pieces with
      | [] => None
      | _ :: _ => parse_steps namespaces pieces
      end
  | _ => None
  end.

Definition matches (t : test) (e : element) : bool :=
  match t with
  | AnyElement => true
  | Named g => String.eqb (tag e) g
  end.

(** [pending] lists the paths whose first step reaches the element under
    consideration.  The element is selected when one of them ends with a test
    it passes. *)
Definition selects (pending : list (list step)) (e : element) : bool :=
  existsb (fun st => match st with
                     | [(_, t)] => matches t e
                     | _ => false
                     end) pending.

(** The paths that reach the children of [e]. *)
Definition advance (pending : list (list step)) (e : element)
  : list (list step) :=
  flat_map (fun st =>
              match st with
              | [] => []
              | (ax, t) :: rest =>
                  (match ax with Descendant => [st] | Child => [] end
                   ++ (if matches t e
                       then match rest with [] => [] | _ :: _ => [rest] end
                       else []))%list
              end) pending.

(** Selected elements below and including [e], in document order. *)
Fixpoint select_in (pending : list (list step)) (p : position) (e : element)
  : list position :=
  let fix nodes (i : nat) (ns : list node) : list position :=
    match ns with
    | [] => []
    | NElem c :: ns' =>
        (select_in (advance pending e) (p ++ [i]) c ++ nodes (S i) ns')%list
    | NComment _ :: ns' => nodes (S i) ns'
    end in
  ((if selects pending e then [p] else []) ++ nodes 0 (children e))%list.

(** [tree.xpath(query, namespaces=...)] *)
Definition xpath (xdoc : ElementTree) (query : string)
  (namespaces : list (string * string)) : option (list position) :=
  do steps <- compile namespaces query;
  Some (select_in [steps] [] (getroot xdoc)).

Definition position_eqb (p q : position) : bool :=
  if list_eq_dec Nat.eq_dec p q then true else false.

Definition selected (res : list position) (p : position) : bool :=
  existsb (position_eqb p) res.

(** The tree once each element of [res] has been removed from its parent
    (the removed element takes its subtree and its tail along). *)
Fixpoint prune (res : list position) (p : position) (e : element) : element :=
  let fix nodes (i : nat) (ns : list node) : list node :=
    match ns with
    | [] => []
    | NElem c :: ns' =>
        if selected res (p ++ [i])%list then nodes (S i) ns'
        else NElem (prune res (p ++ [i])%list c) :: nodes (S i) ns'
    | NComment c :: ns' => NComment c :: nodes (S i) ns'
    end in
  set_children (nodes 0 (children e)) e.

Definition prune_nodes (res : list position) (p : position)
  : nat -> list node -> list node :=
  fix nodes (i : nat) (ns : list node) : list node :=
    match ns with
    | [] => []
    | NElem c :: ns' =>
        if selected res (p ++ [i])%list then nodes (S i) ns'
        else NElem (prune res (p ++ [i])%list c) :: nodes (S i) ns'
    | NComment c :: ns' => NComment c :: nodes (S i) ns'
    end.

End XPath.

(** ** The task *)
Module Task.

Inductive exn : Type :=
| TaskOptionsError (msg : string)
| ParseError
| XPathError
| AttributeError
| FileNotFoundError.

Inductive result (A : Type) : Type :=
| Ok (a : A)
| Raise (e : exn).
Arguments Ok {A} a.
Arguments Raise {A} e.

(** One entry of [elements]: the dictionary with the keys [xpath] and
    [path]. *)
Record step : Type := mkStep { xpath : string; path : string }.

(** The options the task reads ([self.options.get(...)] is [None] for an
    option that was not passed). *)
Record options : Type := mkOptions {
  opt_xpath : option string;
  opt_path : option string;
  opt_elements : option (list step);
  opt_chdir : option string
}.

(** The attributes [_init_options] sets on the task. *)
Record task : Type := mkTask { chdir : option string; elements : list step }.

Definition truthy_list {A : Type} (o : option (list A)) : bool :=
  match o with
  | Some (_ :: _) => true
  | _ => false
  end.

Definition str_or_empty (o : option string) : string :=
  match o with Some s => s | None => EmptyString end.

Definition _init_options (kwargs : options) : result task :=
  let chdir := opt_chdir kwargs in
  let elements := opt_elements kwargs in
  let xpath := opt_xpath kwargs in
  let path := opt_path kwargs in
  if Py.truthy xpath && negb (Py.truthy path) then
    Raise (TaskOptionsError "Specified XPath without `path` to work on.")
  else if Py.truthy path && negb (Py.truthy xpath) then
    Raise (TaskOptionsError "Specified path without `xpath` to apply.")
  else if (Py.truthy path && truthy_list elements)
          || (negb (truthy_list elements) && negb (Py.truthy path)) then
    Raise (TaskOptionsError
             ("Please specify either a single `path` and `xpath` (in CLI or cumulusci.yml) "
              ++ "or a list of several through the `elements` option (cumulusci.yml)."))
  else
    Ok (mkTask chdir
          (if negb (truthy_list elements)
           then [mkStep (str_or_empty xpath) (str_or_empty path)]
           else match elements with Some l => l | None => [] end)).

(** Python values that meet in the comparison of [_process_element]: the
    bytes read from the file and the text returned by the serializer. *)
Inductive pyval : Type :=
| PyBytes (b : string)
| PyStr (s : string).

(** [a == b]: a [bytes] object never equals a [str]. *)
Definition py_eq (a b : pyval) : bool :=
  match a, b with
  | PyBytes x, PyBytes y => String.eqb x y
  | PyStr x, PyStr y => String.eqb x y
  | _, _ => false
  end.

(** [a != b] *)
Definition py_ne (a b : pyval) : bool := negb (py_eq a b).

(** The world the task acts on: the files (name and bytes), the lines sent
    to the logger, and the [fp.write] calls made, oldest first. *)
Record world : Type := mkWorld {
  files : list (string * string);
  log : list string;
  writes : list (string * string)
}.

Definition info (msg : string) (w : world) : world :=
  mkWorld (files w) (log w ++ [msg])%list (writes w).

(** [open(f, w, encoding=utf-8)] then [fp.write(processed)]: the content of
    the file is replaced by the encoded text. *)
Definition write_file (f content : string) (w : world) : world :=
  mkWorld (attrib_set f content (files w)) (log w)
          (writes w ++ [(f, content)])%list.

Definition read_file (f : string) (w : world) : option string :=
  attrib_get f (files w).

Definition namespaces : list (string * string) :=
  [("ns", "http://soap.sforce.com/2006/04/metadata");
   ("re", "http://exslt.org/regular-expressions")].

(** [len(res)] inside an f-string. *)
Definition str_nat (n : nat) : string :=
  DecimalString.NilZero.string_of_uint (Nat.to_uint n).

(** [for element in res: element.getparent().remove(element)]: the root has
    no parent, [None.remove] raises. *)
Definition remove_all (res : list XPath.position) (root : ElementTree)
  : result ElementTree :=
  if XPath.selected res [] then Raise AttributeError
  else Ok (mkTree (XPath.prune res [] (getroot root))).

(** The body of the loop over the files of one step.  [ET.parse(f)] opens
    the file a second time; nothing has written to it since [orig] was
    read, so the parser is run on [orig]. *)
Definition process_file (step : step) (f : string) (w : world)
  : result unit * world :=
  let w := info ("Checking " ++ f) w in
  match read_file f w with
  | None => (Raise FileNotFoundError, w)
  | Some orig =>
      match Xml.parse orig with
      | None => (Raise ParseError, w)
      | Some root =>
          match XPath.xpath root (xpath step) namespaces with
          | None => (Raise XPathError, w)
          | Some res =>
              let w := info ("Found " ++ str_nat (List.length res)
                             ++ " matching elements") w in
              match remove_all res root with
              | Raise e => (Raise e, w)
              | Ok root =>
                  let processed := snd (salesforce_encoding root) in
                  if py_ne (PyBytes orig) (PyStr processed) then
                    let w := info ("Modified " ++ f) w in
                    (Ok tt, write_file f processed w)
                  else (Ok tt, w)
              end
          end
      end
  end.

Fixpoint for_each {A : Type} (body : A -> world -> result unit * world)
  (l : list A) (w : world) : result unit * world :=
  match l with
  | [] => (Ok tt, w)
  | x :: l' =>
      match body x w with
      | (Ok _, w') => for_each body l' w'
      | (Raise e, w') => (Raise e, w')
      end
  end.

Section WithGlob.

(** [glob.glob(pattern, recursive=True)] run in the directory [chdir]: the
    matching file names, as the rest of the task opens them. *)
Variable glob : option string -> string -> list (string * string) -> list string.

Definition _process_element (cwd : option string) (step : step) (w : world)
  : result unit * world :=
  let w := info ("Removing elements matching " ++ xpath step
                 ++ " from " ++ path step) w in
  for_each (process_file step) (glob cwd (path step) (files w)) w.

Definition _run_task (self : task) (w : world) : result unit * world :=
  let w := match chdir self with
           | Some (String _ _ as d) => info ("Changing directory to " ++ d) w
           | _ => w
           end in
  for_each (_process_element (chdir self)) (elements self) w.

(** Construction of the task from its options, then its run. *)
Definition run (kwargs : options) (w : world) : result unit * world :=
  match _init_options kwargs with
  | Raise e => (Raise e, w)
  | Ok self => _run_task self w
  end.

End WithGlob.

(** [glob] on a pattern without wildcard: the file of that name, when it
    exists. *)
Definition glob_literal (cwd : option string) (pattern : string)
  (fs : list (string * string)) : list string :=
  match attrib_get pattern fs with
  | Some _ => [pattern]
  | None => []
  end.

End Task.

(** ** Notions used by the statements *)
Module Spec.

(** The replacement the five special characters receive. *)
Definition esc_char (c : ascii) : string :=
  if Ascii.eqb c "'" then "&apos;"
  else if Ascii.eqb c "034" then "&quot;"
  else if Ascii.eqb c "&" then "&amp;"
  else if Ascii.eqb c "<" then "&lt;"
  else if Ascii.eqb c ">" then "&gt;"
  else String c EmptyString.

(** A text with each special character replaced. *)
Fixpoint escaped (s : string) : string :=
  match s with
  | EmptyString => EmptyString
  | String c s' => esc_char c ++ escaped s'
  end.

(** A tag belongs to the namespace [uri] when it reads [{uri}local]. *)
Definition in_namespace (uri tag : string) : bool :=
  String.prefix ("{" ++ uri ++ "}") tag.

(** The element has no child node and no non-empty leading text. *)
Definition no_content (e : element) : Prop :=
  children e = [] /\ (text e = None \/ text e = Some EmptyString).

(** Number of attributes named [k]. *)
Definition count_key (k : string) (a : list (string * string)) : nat :=
  List.length (filter (fun kv => String.eqb (fst kv) k) a).


(** *** Documents that the serializer writes in a form the parser reads *)

Definition is_value_ok (v : string) : bool :=
  Xml.forallb_string
    (fun c => Xml.is_value_char c && negb (Ascii.eqb c "&")) v.

Definition is_tail_ok (t : string) : bool :=
  Xml.forallb_string
    (fun c => Xml.is_text_char c && negb (Ascii.eqb c "&")) t.

Definition is_text_ok (t : string) : bool := Xml.forallb_string Xml.is_plain t.

(** Every dash is followed by a character that is not a dash. *)
Fixpoint no_double_dash (s : string) : bool :=
  match s with
  | EmptyString => true
  | String c s' =>
      if Ascii.eqb c "-" then
        match s' with
        | EmptyString => false
        | String d _ => negb (Ascii.eqb d "-") && no_double_dash s'
        end
      else no_double_dash s'
  end.

Definition comment_ok (c : comment) : bool :=
  Xml.forallb_string Xml.is_plain (ctext c) && no_double_dash (ctext c)
  && is_tail_ok (or_else (ctail c) EmptyString).

Definition attr_ok (kv : string * string) : bool :=
  XPath.is_ncname (fst kv) && is_value_ok (snd kv)
  && match snd kv with EmptyString => Xml.not_xmlns kv | String _ _ => true end.

Definition attrs_ok (a : list (string * string)) : bool :=
  forallb attr_ok a && Xml.nodup_keys a.

Definition text_or_empty (o : option string) : string :=
  match o with Some t => t | None => EmptyString end.

(** What follows the end tag of an element (nothing after a self-closed
    one). *)
Definition tail_written (e : element) : string :=
  if has_content e then or_else (tail e) nl else EmptyString.

(** What is written for an element before that. *)
Definition head_written (e : element) : string :=
  if has_content e
  then open_tag e ++ ">" ++ escaped_text e ++ render_nodes (children e)
       ++ "</" ++ local_tag (tag e) ++ ">"
  else open_tag e ++ "/>".

(** The element and everything below it is written with names the parser
    reads as names, attribute values and tails free of markup characters,
    and 7-bit text. *)
Fixpoint printable (e : element) : bool :=
  let fix nodes (l : list node) : bool :=
    match l with
    | [] => true
    | NElem c :: l' => printable c && is_tail_ok (tail_written c) && nodes l'
    | NComment c :: l' => comment_ok c && nodes l'
    end in
  XPath.is_ncname (local_tag (tag e)) && attrs_ok (attrib e)
  && (if has_content e
      then is_text_ok (text_or_empty (text e)) && nodes (children e)
      else true).

Definition printable_nodes : list node -> bool :=
  fix nodes (l : list node) : bool :=
    match l with
    | [] => true
    | NElem c :: l' => printable c && is_tail_ok (tail_written c) && nodes l'
    | NComment c :: l' => comment_ok c && nodes l'
    end.

(** No attribute is named [xmlns], here or below. *)
Fixpoint no_xmlns (e : element) : bool :=
  let fix nodes (l : list node) : bool :=
    match l with
    | [] => true
    | NElem c :: l' => no_xmlns c && nodes l'
    | NComment _ :: l' => nodes l'
    end in
  forallb Xml.not_xmlns (attrib e) && nodes (children e).

Definition no_xmlns_nodes : list node -> bool :=
  fix nodes (l : list node) : bool :=
    match l with
    | [] => true
    | NElem c :: l' => no_xmlns c && nodes l'
    | NComment _ :: l' => nodes l'
    end.

(** The documents of the round trip: printable, without [xmlns] attribute,
    and with nothing but the default newline after the root. *)
Definition canonical (xdoc : ElementTree) : bool :=
  let root := getroot xdoc in
  printable root && no_xmlns root && String.eqb (tail_written root)
                                       (if has_content root then nl else EmptyString).

(** The tree the parser builds from the rendering of [e] read in the default
    namespace [ns]; the tail of [e] itself is left to the caller. *)
Fixpoint norm (ns : string) (e : element) : element :=
  let decl := attrib_get "xmlns" (attrib e) in
  let ns' := match decl with Some v => v | None => ns end in
  let fix nodes (l : list node) : list node :=
    match l with
    | [] => []
    | NElem c :: l' =>
        NElem (set_tail (Xml.to_opt (tail_written c)) (norm ns' c)) :: nodes l'
    | NComment c :: l' =>
        NComment (mkComment (ctext c)
                    (Xml.to_opt (or_else (ctail c) EmptyString))) :: nodes l'
    end in
  mkElement (Xml.qualify ns' (local_tag (tag e)))
            (match decl with Some v => [(EmptyString, v)] | None => [] end)
            (filter Xml.not_xmlns (attrib e))
            (if has_content e then Xml.to_opt (text_or_empty (text e)) else None)
            (if has_content e then nodes (children e) else [])
            None.

Definition norm_nodes (ns : string) : list node -> list node :=
  fix nodes (l : list node) : list node :=
    match l with
    | [] => []
    | NElem c :: l' =>
        NElem (set_tail (Xml.to_opt (tail_written c)) (norm ns c)) :: nodes l'
    | NComment c :: l' =>
        NComment (mkComment (ctext c)
                    (Xml.to_opt (or_else (ctail c) EmptyString))) :: nodes l'
    end.

Definition normalize (xdoc : ElementTree) : ElementTree :=
  mkTree (norm EmptyString (getroot xdoc)).

(** Fuel that suffices to read the rendering of an element. *)
Fixpoint cost (e : element) : nat :=
  let fix nodes (l : list node) : nat :=
    match l with
    | [] => 1
    | NElem c :: l' => cost c + nodes l'
    | NComment _ :: l' => 1 + nodes l'
    end in
  1 + nodes (children e).

Definition cost_nodes : list node -> nat :=
  fix nodes (l : list node) : nat :=
    match l with
    | [] => 1
    | NElem c :: l' => cost c + nodes l'
    | NComment _ :: l' => 1 + nodes l'
    end.

(** [s] is empty or begins with a character that fails [p]. *)
Definition stops (p : ascii -> bool) (s : string) : Prop :=
  match s with
  | EmptyString => True
  | String c _ => p c = false
  end.

(** [s] begins with the character [c]. *)
Definition starts_with (c : ascii) (s : string) : Prop :=
  exists s', s = String c s'.

(** The parser, given enough fuel, reads the element back from what is
    written for it, whatever follows. *)
Definition reads_back (e : element) : Prop :=
  printable e = true ->
  forall fuel ns rest,
    cost e <= fuel ->
    Xml.parse_element fuel ns (head_written e ++ rest) = Some (norm ns e, rest).

(** Read in the default namespace [ns] and given the tail the parser finds,
    the element is written as before. *)
Definition writes_back (ns : string) (e : element) : Prop :=
  printable e = true -> no_xmlns e = true ->
  render (set_tail (Xml.to_opt (tail_written e)) (norm ns e)) = render e.

Definition not_rbrace (c : ascii) : bool := negb (Ascii.eqb c "}").

(** What is written for an element after its open tag and before its
    tail. *)
Definition body_written (e : element) : string :=
  if has_content e
  then ">" ++ escaped_text e ++ render_nodes (children e)
       ++ "</" ++ local_tag (tag e) ++ ">"
  else "/>".

(** The default namespace inside an element carrying the attributes [a],
    read in the default namespace [ns]. *)
Definition ns_inside (ns : string) (a : list (string * string)) : string :=
  match attrib_get "xmlns" a with
  | Some v => v
  | None => ns
  end.

(** The document of the scenario. *)
Definition layout_xml : string :=
  xml_encoding ++ "<Layout xmlns=" ++ dq ++ SF_NS ++ dq ++ ">" ++ nl
  ++ "  <relatedLists>" ++ nl
  ++ "    <field>Name</field>" ++ nl
  ++ "  </relatedLists>" ++ nl
  ++ "</Layout>" ++ nl.

(** The tree of the document of the scenario. *)
Definition layout_tree : ElementTree :=
  let q := fun name => "{" ++ SF_NS ++ "}" ++ name in
  mkTree
    (mkElement (q "Layout") [(EmptyString, SF_NS)] [] (Some (nl ++ "  "))
       [NElem
          (mkElement (q "relatedLists") [] [] (Some (nl ++ "    "))
             [NElem (mkElement (q "field") [] [] (Some "Name") []
                       (Some (nl ++ "  ")))]
             (Some nl))]
       None).

End Spec.

(** ** Notions used by the further properties *)
Module Props.

(** The four characters that never appear raw in an escaped text. *)
Definition is_delimiter (c : ascii) : bool :=
  Ascii.eqb c "<" || Ascii.eqb c ">" || Ascii.eqb c "'" || Ascii.eqb c "034".

(** One of the five characters [escape] replaces. *)
Definition is_special (c : ascii) : bool :=
  Ascii.eqb c "&" || is_delimiter c.

(** What a child node contributes to the output: an element its own
    events, a comment its text between the comment marks, then its tail. *)
Definition node_out (n : node) : string :=
  match n with
  | NElem c => emit c
  | NComment c =>
      "<!--" ++ ctext c ++ "-->"
      ++ match ctail c with
         | Some (String _ _ as t) => t
         | _ => EmptyString
         end
  end.

(** An absent text for an empty one. *)
Definition blank_to_none (o : option string) : option string :=
  match o with
  | Some (String _ _) => o
  | _ => None
  end.

(** The tree without its namespace declarations and with every empty text
    or tail made absent. *)
Fixpoint erase (e : element) : element :=
  mkElement (tag e) [] (attrib e) (blank_to_none (text e))
    (map (fun n => match n with
                   | NElem c => NElem (erase c)
                   | NComment c =>
                       NComment (mkComment (ctext c) (blank_to_none (ctail c)))
                   end) (children e))
    (blank_to_none (tail e)).

(** The tree with every tag replaced by its local name. *)
Fixpoint bare (e : element) : element :=
  mkElement (local_tag (tag e)) (nsdecl e) (attrib e) (text e)
    (map (fun n => match n with
                   | NElem c => NElem (bare c)
                   | NComment _ => n
                   end) (children e))
    (tail e).

Definition bare_node (n : node) : node :=
  match n with
  | NElem c => NElem (bare c)
  | NComment _ => n
  end.

(** The inner loop of [XPath.select_in]: the selected elements among the
    nodes [ns], the first of which is child number [i] of the element at
    [p]; [pending] lists the paths that reach these nodes. *)
Definition select_nodes (pending : list (list XPath.step))
  (p : XPath.position) : nat -> list node -> list XPath.position :=
  fix nodes (i : nat) (ns : list node) : list XPath.position :=
    match ns with
    | [] => []
    | NElem c :: ns' =>
        (XPath.select_in pending (p ++ [i]) c ++ nodes (S i) ns')%list
    | NComment _ :: ns' => nodes (S i) ns'
    end.

(** The names of the files of a store. *)
Definition names (fs : list (string * string)) : list string := map fst fs.

(** Every content written starts with the declaration. *)
Definition declared (ws : list (string * string)) : Prop :=
  Forall (fun fc => exists rest, snd fc = xml_encoding ++ rest) ws.

(** What a run may do to the world: the files keep their names, the log
    and the list of writes only grow, and each new write puts a text that
    starts with the declaration into a file that existed. *)
Definition extends (w w' : Task.world) : Prop :=
  names (Task.files w') = names (Task.files w)
  /\ (exists l, Task.log w' = (Task.log w ++ l)%list)
  /\ (exists ws,
        Task.writes w' = (Task.writes w ++ ws)%list
        /\ declared ws
        /\ Forall (fun fc => In (fst fc) (names (Task.files w))) ws).

End Props.

(** * Facts *)

(** ** Generic facts on [string] *)

Lemma append_nil_r (s : string) : s ++ EmptyString = s.
Proof. induction s as [|c s IH]; simpl; [reflexivity | now rewrite IH]. Qed.

Lemma append_assoc (a b c : string) : (a ++ b) ++ c = a ++ (b ++ c).
Proof. induction a as [|x a IH]; simpl; [reflexivity | now rewrite IH]. Qed.

Lemma append_inv_head (p a b : string) : p ++ a = p ++ b -> a = b.
Proof.
  induction p as [|x p IH]; simpl; intros H; [exact H|].
  injection H as H. now apply IH.
Qed.

Lemma length_append (a b : string) :
  String.length (a ++ b) = String.length a + String.length b.
Proof. induction a as [|x a IH]; simpl; [reflexivity | now rewrite IH]. Qed.

(** ** The serializer loop as a recursive rendering *)

Lemma iterwalk_unfold (e : element) :
  iterwalk e =
  (map (fun d => EvStartNs (fst d) (snd d)) (nsdecl e)
   ++ EvStart e :: iterwalk_nodes (children e)
   ++ EvEnd e :: map (fun _ => EvEndNs) (nsdecl e))%list.
Proof. destruct e; reflexivity. Qed.

Lemma render_unfold (e : element) :
  render e =
  if has_content e
  then open_tag e ++ ">" ++ escaped_text e ++ render_nodes (children e)
       ++ close_tag e
  else open_tag e ++ "/>".
Proof. destruct e; reflexivity. Qed.

Lemma fold_start_ns (l : list (string * string)) (r : string) :
  fold_left on_event (map (fun d => EvStartNs (fst d) (snd d)) l) r = r.
Proof. induction l as [|d l IH]; simpl; [reflexivity | exact IH]. Qed.

Lemma fold_end_ns (l : list (string * string)) (r : string) :
  fold_left on_event (map (fun _ => EvEndNs) l) r = r.
Proof. induction l as [|d l IH]; simpl; [reflexivity | exact IH]. Qed.

(** The loop over the events of a subtree appends that subtree's rendering. *)
Lemma fold_iterwalk (e : element) :
  forall r, fold_left on_event (iterwalk e) r = r ++ render e.
Proof.
  induction e as [g n a x cs t IH] using element_induction.
  assert (Hnodes : forall r,
             fold_left on_event (iterwalk_nodes cs) r = r ++ render_nodes cs).
  { clear -IH. induction cs as [|[c|c] cs IHcs]; intros r.
    - simpl. now rewrite append_nil_r.
    - destruct IH as [Hc Hcs].
      change (fold_left on_event (iterwalk c ++ iterwalk_nodes cs)%list r
              = r ++ (render c ++ render_nodes cs)).
      rewrite fold_left_app, Hc, (IHcs Hcs). now rewrite append_assoc.
    - change (fold_left on_event (iterwalk_nodes cs) (on_event r (EvComment c))
              = r ++ (render_comment c ++ render_nodes cs)).
      rewrite (IHcs IH). unfold on_event, render_comment.
      now rewrite !append_assoc. }
  intros r. rewrite iterwalk_unfold, render_unfold.
  rewrite fold_left_app, fold_start_ns. cbn [fold_left].
  rewrite fold_left_app, Hnodes. cbn [fold_left]. rewrite fold_end_ns.
  unfold on_event, open_tag, close_tag, escaped_text.
  destruct (has_content (mkElement g n a x cs t)) eqn:Hc; cbn [negb].
  - now rewrite ?append_assoc.
  - unfold has_content in Hc. apply orb_false_elim in Hc as [_ Hc].
    cbn [children] in *. destruct cs; [|discriminate]. cbn [render_nodes].
    now rewrite append_nil_r, ?append_assoc.
Qed.

Lemma emit_render (e : element) : emit e = render e.
Proof. unfold emit. now rewrite fold_iterwalk. Qed.

Lemma salesforce_encoding_render (xdoc : ElementTree) :
  snd (salesforce_encoding xdoc)
  = xml_encoding ++ render (getroot (force_xmlns xdoc)).
Proof. unfold salesforce_encoding. cbn [snd]. apply fold_iterwalk. Qed.


(** ** [escape] replaces character by character *)

Lemma replace_app (c : ascii) (n a b : string) :
  Py.replace c n (a ++ b) = Py.replace c n a ++ Py.replace c n b.
Proof.
  induction a as [|x a IH]; simpl; [reflexivity|].
  destruct (Ascii.eqb x c); simpl; rewrite IH; [now rewrite append_assoc | reflexivity].
Qed.

Lemma escape_escaped (s : string) : Py.escape s entities = Spec.escaped s.
Proof.
  unfold Py.escape, entities, Py.dict_replace. cbn [fold_left fst snd].
  induction s as [|c s IH]; [reflexivity|].
  cbn [Py.replace Spec.escaped]. unfold Spec.esc_char.
  destruct (Ascii.eqb c "&") eqn:Eamp.
  { apply Ascii.eqb_eq in Eamp. subst c. rewrite !replace_app, IH. reflexivity. }
  cbn [Py.replace]. destruct (Ascii.eqb c ">") eqn:Egt.
  { apply Ascii.eqb_eq in Egt. subst c. rewrite !replace_app, IH. reflexivity. }
  cbn [Py.replace]. destruct (Ascii.eqb c "<") eqn:Elt.
  { apply Ascii.eqb_eq in Elt. subst c. rewrite !replace_app, IH. reflexivity. }
  cbn [Py.replace]. destruct (Ascii.eqb c "'") eqn:Eapos.
  { apply Ascii.eqb_eq in Eapos. subst c. rewrite !replace_app, IH. reflexivity. }
  cbn [Py.replace]. destruct (Ascii.eqb c "034") eqn:Equot.
  { apply Ascii.eqb_eq in Equot. subst c. rewrite IH. reflexivity. }
  rewrite IH. reflexivity.
Qed.

(** ** Self-closing *)

Lemma has_content_false_iff (e : element) :
  has_content e = false <-> Spec.no_content e.
Proof.
  unfold has_content, Spec.no_content, Py.truthy.
  destruct (text e) as [[|c s]|]; destruct (children e) as [|n cs]; cbn;
    split; try discriminate; intros H; try reflexivity.
  - split; [reflexivity | right; reflexivity].
  - destruct H as [H _]; discriminate.
  - destruct H as [_ [H|H]]; discriminate.
  - destruct H as [H _]; discriminate.
  - split; [reflexivity | left; reflexivity].
  - destruct H as [H _]; discriminate.
Qed.

Lemma open_close_differ (p rest : string) : p ++ "/>" <> p ++ ">" ++ rest.
Proof. intros H. apply append_inv_head in H. discriminate H. Qed.


(** ** The tail of a self-closed element *)

Lemma has_content_set_tail (t : option string) (e : element) :
  has_content (set_tail t e) = has_content e.
Proof. destruct e; reflexivity. Qed.

Lemma render_self_closed (e : element) :
  has_content e = false -> render e = open_tag e ++ "/>".
Proof. intros H. rewrite render_unfold, H. reflexivity. Qed.

Lemma render_set_tail_self_closed (t : option string) (e : element) :
  has_content e = false -> render (set_tail t e) = render e.
Proof.
  intros H. rewrite !render_self_closed; rewrite ?has_content_set_tail; auto.
  destruct e; reflexivity.
Qed.

Lemma render_nodes_map_at (f : element -> element) (cs : list node) :
  forall i,
    (forall c, nth_error cs i = Some (NElem c) -> render (f c) = render c) ->
    render_nodes
      (map_at i (fun n => match n with
                          | NElem c => NElem (f c)
                          | NComment _ => n
                          end) cs)
    = render_nodes cs.
Proof.
  induction cs as [|n cs IH]; intros i H; [destruct i; reflexivity|].
  destruct i as [|i]; cbn [map_at].
  - destruct n as [c|c]; [|reflexivity].
    cbn [render_nodes]. change (render (f c) ++ render_nodes cs = render c ++ render_nodes cs).
    now rewrite (H c eq_refl).
  - assert (E : render_nodes
                  (map_at i (fun n => match n with
                                      | NElem c => NElem (f c)
                                      | NComment _ => n
                                      end) cs) = render_nodes cs)
      by (apply IH; intros c Hc; apply H; exact Hc).
    destruct n as [c|c].
    + change (render c ++ render_nodes
                (map_at i (fun n => match n with
                                    | NElem c => NElem (f c)
                                    | NComment _ => n
                                    end) cs) = render c ++ render_nodes cs).
      now rewrite E.
    + change (render_comment c ++ render_nodes
                (map_at i (fun n => match n with
                                    | NElem c => NElem (f c)
                                    | NComment _ => n
                                    end) cs) = render_comment c ++ render_nodes cs).
      now rewrite E.
Qed.

Lemma map_at_nil_iff {A : Type} (i : nat) (f : A -> A) (l : list A) :
  map_at i f l = [] <-> l = [].
Proof. destruct l, i; cbn; split; intros H; try reflexivity; discriminate. Qed.

Lemma has_content_set_children (cs : list node) (e : element) :
  (cs = [] <-> children e = []) ->
  has_content (set_children cs e) = has_content e.
Proof.
  destruct e as [g n a x cs' t]. unfold has_content. cbn.
  intros [H1 H2]. destruct cs, cs'; try reflexivity.
  - discriminate (H1 eq_refl).
  - discriminate (H2 eq_refl).
Qed.

(** Changing the tail of a self-closed element, wherever it sits in the
    tree, leaves the rendering of the tree unchanged. *)
Lemma render_update_tail (t : option string) (p : list nat) :
  forall root e,
    element_at p root = Some e -> has_content e = false ->
    render (update_at p (set_tail t) root) = render root.
Proof.
  induction p as [|i p IH]; intros root e Hat Hc.
  - cbn in Hat. injection Hat as ->. now apply render_set_tail_self_closed.
  - cbn [update_at]. cbn [element_at] in Hat.
    rewrite (render_unfold (set_children _ root)), (render_unfold root).
    rewrite has_content_set_children by apply map_at_nil_iff.
    destruct root as [g n a x cs tl]. cbn [children set_children] in *.
    unfold open_tag, escaped_text, close_tag. cbn [tag attrib text tail children].
    rewrite render_nodes_map_at; [reflexivity|].
    intros c Hnth. rewrite Hnth in Hat. now apply (IH c e).
Qed.

(** C10: an element that is written self-closed contributes its
    self-closed tag and nothing more: its end event appends nothing, neither
    its tail nor the newline used in place of a missing tail, and the
    document's serialization is the same whatever that tail is, wherever the
    element sits in the tree. *)
Theorem self_closed_tail_dropped
  (xdoc : ElementTree) (p : list nat) (e : element) (t : option string) :
  element_at p (getroot xdoc) = Some e ->
  has_content e = false ->
  emit e = open_tag e ++ "/>"
  /\ (forall r, on_event r (EvEnd e) = r)
  /\ emit (set_tail t e) = emit e
  /\ snd (salesforce_encoding (mkTree (update_at p (set_tail t) (getroot xdoc))))
     = snd (salesforce_encoding xdoc).
Proof.
  intros Hat Hc. split; [|split; [|split]].
  - rewrite emit_render. now apply render_self_closed.
  - intros r. unfold on_event. now rewrite Hc.
  - rewrite !emit_render. now apply render_set_tail_self_closed.
  - rewrite !salesforce_encoding_render. f_equal.
    destruct xdoc as [root]. cbn [getroot] in *. unfold force_xmlns. cbn [getroot].
    assert (Htag : tag (update_at p (set_tail t) root) = tag root)
      by (destruct p, root; reflexivity).
    assert (Hattr : attrib (update_at p (set_tail t) root) = attrib root)
      by (destruct p, root; reflexivity).
    rewrite Htag, Hattr.
    destruct (Py.contains SF_NS (tag root)); cbn [getroot].
    + set (a := attrib_set "xmlns" SF_NS (attrib root)).
      assert (Hcomm : set_attrib a (update_at p (set_tail t) root)
                      = update_at p (set_tail t) (set_attrib a root))
        by (destruct p, root; reflexivity).
      rewrite Hcomm. destruct p as [|i p].
      * cbn in Hat. injection Hat as <-.
        apply (render_update_tail t [] _ (set_attrib a root)); [reflexivity|].
        destruct root; exact Hc.
      * apply (render_update_tail t (i :: p) _ e); [|exact Hc].
        destruct root; exact Hat.
    + now apply (render_update_tail t p root e).
Qed.

(** C10 at a self-closed child that has a tail. *)
Lemma self_closed_tail_dropped_witness :
  let leaf := mkElement "b" [] [] None [] (Some "tail") in
  let xdoc := mkTree (mkElement "a" [] [] None [NElem leaf] None) in
  emit leaf = open_tag leaf ++ "/>"
  /\ (forall r, on_event r (EvEnd leaf) = r)
  /\ emit (set_tail None leaf) = emit leaf
  /\ snd (salesforce_encoding
            (mkTree (update_at [0] (set_tail None) (getroot xdoc))))
     = snd (salesforce_encoding xdoc).
Proof.
  exact (self_closed_tail_dropped
           (mkTree (mkElement "a" [] [] None
                      [NElem (mkElement "b" [] [] None [] (Some "tail"))] None))
           [0] (mkElement "b" [] [] None [] (Some "tail")) None
           eq_refl eq_refl).
Defined.

(** ** Escaping *)

Lemma escaped_text_escaped (e : element) :
  escaped_text e
  = match text e with Some t => Spec.escaped t | None => EmptyString end.
Proof. unfold escaped_text. destruct (text e); [apply escape_escaped | reflexivity]. Qed.

Lemma attrs_of_cons (kv : string * string) (a : list (string * string)) :
  attrs_of (kv :: a)
  = " " ++ fst kv ++ "=" ++ dq ++ snd kv ++ dq ++ attrs_of a.
Proof.
  unfold attrs_of, Py.join. cbn [map String.concat].
  destruct a as [|kv' a].
  - cbn [map String.concat]. now rewrite ?append_assoc, append_nil_r.
  - cbn [map]. now rewrite ?append_assoc.
Qed.

(** C2: the leading text of every element is written with the five special
    characters replaced, but every attribute value is written between its
    quotes as it is: the element parsed from a start tag whose attribute
    holds the five characters as entity references is written back with the
    five characters raw. *)
Theorem attribute_value_written_raw :
  let value := "'" ++ dq ++ "&<>" in
  let e := mkElement "a" [] [("k", value)] None [] None in
  Xml.parse ("<a k=" ++ dq ++ "&apos;&quot;&amp;&lt;&gt;" ++ dq ++ "/>")
  = Some (mkTree e)
  /\ Spec.escaped value = "&apos;&quot;&amp;&lt;&gt;"
  /\ emit e = "<a k=" ++ dq ++ value ++ dq ++ "/>"
  /\ String.eqb (emit e) ("<a k=" ++ dq ++ Spec.escaped value ++ dq ++ "/>") = false
  /\ snd (salesforce_encoding (mkTree e))
     = xml_encoding ++ "<a k=" ++ dq ++ value ++ dq ++ "/>"
  /\ (forall e' : element,
         escaped_text e'
         = match text e' with Some t => Spec.escaped t | None => EmptyString end)
  /\ (forall k v a,
         attrs_of ((k, v) :: a) = " " ++ k ++ "=" ++ dq ++ v ++ dq ++ attrs_of a).
Proof.
  cbv zeta. repeat split; try (vm_compute; reflexivity).
  - apply escaped_text_escaped.
  - intros k v a. apply (attrs_of_cons (k, v)).
Qed.

(** ** The namespace attribute of the root *)

Lemma attrib_get_set (k v : string) (a : list (string * string)) :
  attrib_get k (attrib_set k v a) = Some v.
Proof.
  induction a as [|[k' v'] a IH]; cbn.
  - now rewrite String.eqb_refl.
  - destruct (String.eqb k' k) eqn:E; cbn; rewrite E; [reflexivity | exact IH].
Qed.

Lemma attrib_set_idem (k v : string) (a : list (string * string)) :
  attrib_set k v (attrib_set k v a) = attrib_set k v a.
Proof.
  induction a as [|[k' v'] a IH]; cbn.
  - now rewrite String.eqb_refl.
  - destruct (String.eqb k' k) eqn:E; cbn; rewrite E; [reflexivity | now rewrite IH].
Qed.

Lemma count_key_set (k v : string) (a : list (string * string)) :
  Spec.count_key k (attrib_set k v a) = Nat.max 1 (Spec.count_key k a).
Proof.
  unfold Spec.count_key.
  induction a as [|[k' v'] a IH]; cbn.
  - now rewrite String.eqb_refl.
  - destruct (String.eqb k' k) eqn:E; cbn; rewrite E; cbn.
    + reflexivity.
    + exact IH.
Qed.

Lemma prefix_app_l (a b s : string) :
  String.prefix (a ++ b) s = true -> String.prefix a s = true.
Proof.
  revert s. induction a as [|x a IH]; intros s H; [destruct s; reflexivity|].
  destruct s as [|y s]; cbn in *; [discriminate|].
  destruct (ascii_dec x y); [now apply IH | discriminate].
Qed.

Lemma contains_unfold (sub s : string) :
  Py.contains sub s
  = if String.prefix sub s then true
    else match s with
         | EmptyString => false
         | String _ s' => Py.contains sub s'
         end.
Proof. destruct s; reflexivity. Qed.

Lemma contains_of_prefix (sub s : string) :
  String.prefix sub s = true -> Py.contains sub s = true.
Proof. intros H. rewrite contains_unfold. now rewrite H. Qed.

Lemma in_namespace_contains (uri tag : string) :
  Spec.in_namespace uri tag = true -> Py.contains uri tag = true.
Proof.
  unfold Spec.in_namespace. destruct tag as [|c tag']; cbn [append String.prefix];
    [discriminate|].
  destruct (ascii_dec "{" c); [|discriminate]. intros H.
  apply prefix_app_l, contains_of_prefix in H.
  rewrite contains_unfold. now destruct (String.prefix uri (String c tag')).
Qed.

Lemma force_xmlns_idem (xdoc : ElementTree) :
  force_xmlns (force_xmlns xdoc) = force_xmlns xdoc.
Proof.
  destruct xdoc as [[g n a x cs t]]. unfold force_xmlns. cbn.
  destruct (Py.contains SF_NS g) eqn:E; cbn; rewrite E; [|reflexivity].
  now rewrite attrib_set_idem.
Qed.

Lemma force_xmlns_root (xdoc : ElementTree) :
  getroot (force_xmlns xdoc)
  = set_attrib (if Py.contains SF_NS (tag (getroot xdoc))
                then attrib_set "xmlns" SF_NS (attrib (getroot xdoc))
                else attrib (getroot xdoc)) (getroot xdoc).
Proof.
  destruct xdoc as [[g n a x cs t]]. unfold force_xmlns. cbn [getroot tag attrib].
  destruct (Py.contains SF_NS g); reflexivity.
Qed.

Lemma force_xmlns_unchanged (xdoc : ElementTree) :
  Py.contains SF_NS (tag (getroot xdoc)) = false -> force_xmlns xdoc = xdoc.
Proof. intros H. unfold force_xmlns. now rewrite H. Qed.



(** ** What serialization changes in the tree *)



(** ** Option checking *)

(** C9: with an option counted as given when it is truthy (a non-empty
    string, a non-empty list), [_init_options] raises a [TaskOptionsError]
    exactly for an xpath without a path, a path without an xpath, a path
    together with an elements list, or neither a path nor an elements list;
    the error leaves the world as it was (no file read or written, nothing
    logged); a path with an xpath and no elements list gives the one-entry
    list made of them, and an elements list alone is taken as it is. *)
Theorem init_options_errors
  (glob : option string -> string -> list (string * string) -> list string)
  (kwargs : Task.options) (w : Task.world) :
  let x := Py.truthy (Task.opt_xpath kwargs) in
  let p := Py.truthy (Task.opt_path kwargs) in
  let e := Task.truthy_list (Task.opt_elements kwargs) in
  let invalid := (x && negb p) || (p && negb x) || (p && e) || (negb p && negb e) in
  if invalid
  then exists msg,
      Task._init_options kwargs = Task.Raise (Task.TaskOptionsError msg)
      /\ Task.run glob kwargs w = (Task.Raise (Task.TaskOptionsError msg), w)
  else exists self,
      Task._init_options kwargs = Task.Ok self
      /\ Task.chdir self = Task.opt_chdir kwargs
      /\ Task.elements self
         = if e
           then match Task.opt_elements kwargs with Some l => l | None => [] end
           else [Task.mkStep (Task.str_or_empty (Task.opt_xpath kwargs))
                   (Task.str_or_empty (Task.opt_path kwargs))].
Proof.
  cbv zeta. unfold Task.run, Task._init_options.
  destruct (Py.truthy (Task.opt_xpath kwargs)),
           (Py.truthy (Task.opt_path kwargs)),
           (Task.truthy_list (Task.opt_elements kwargs));
    cbn [andb orb negb]; eexists; repeat split; reflexivity.
Qed.

(** ** The comparison before the write *)

Lemma bytes_ne_str (b s : string) : Task.py_ne (Task.PyBytes b) (Task.PyStr s) = true.
Proof. reflexivity. Qed.

(** Every file that is processed to the end is written, whatever its
    content and whatever the serializer returned. *)
Lemma process_file_always_writes (step : Task.step) (f : string) (w w' : Task.world) :
  Task.process_file step f w = (Task.Ok tt, w') ->
  exists orig root res root',
    Task.read_file f w = Some orig
    /\ Xml.parse orig = Some root
    /\ XPath.xpath root (Task.xpath step) Task.namespaces = Some res
    /\ Task.remove_all res root = Task.Ok root'
    /\ Task.writes w'
       = (Task.writes w ++ [(f, snd (salesforce_encoding root'))])%list.
Proof.
  unfold Task.process_file.
  change (Task.read_file f (Task.info ("Checking " ++ f) w))
    with (Task.read_file f w).
  destruct (Task.read_file f w) as [orig|]; [|discriminate].
  destruct (Xml.parse orig) as [root|] eqn:Hparse; [|discriminate].
  destruct (XPath.xpath root (Task.xpath step) Task.namespaces) as [res|] eqn:Hres;
    [|discriminate].
  destruct (Task.remove_all res root) as [root'|err] eqn:Hrm; [|discriminate].
  rewrite bytes_ne_str. intros H. injection H as <-.
  exists orig, root, res, root'. repeat split; auto.
Qed.

(** C1: the file holds a document already in the serializer's form and the
    query matches nothing; the text returned by the serializer is the file's
    content, character for character, yet the comparison of the bytes read
    with that text holds them different and the file is written again. *)
Theorem identical_content_is_rewritten :
  let w := Task.mkWorld [("layout.xml", Spec.layout_xml)] [] [] in
  let kwargs := Task.mkOptions (Some "//ns:missing") (Some "layout.xml") None None in
  let r := Task.run Task.glob_literal kwargs w in
  fst r = Task.Ok tt
  /\ option_map (fun d => snd (salesforce_encoding d)) (Xml.parse Spec.layout_xml)
     = Some Spec.layout_xml
  /\ Task.py_ne (Task.PyBytes Spec.layout_xml) (Task.PyStr Spec.layout_xml) = true
  /\ Task.writes (snd r) = [("layout.xml", Spec.layout_xml)]
  /\ Task.log (snd r)
     = ["Removing elements matching //ns:missing from layout.xml";
        "Checking layout.xml"; "Found 0 matching elements";
        "Modified layout.xml"].
Proof. cbv zeta. repeat split; vm_compute; reflexivity. Qed.

(** ** The scenario *)

(** C3 (as the code has it): removing the related lists from the document
    of the scenario leaves the root with its blank leading text, so the root
    is written with a start tag, that text and an end tag. *)
Theorem scenario_output :
  let w := Task.mkWorld [("layout.xml", Spec.layout_xml)] [] [] in
  let kwargs :=
    Task.mkOptions (Some "//ns:relatedLists") (Some "layout.xml") None None in
  let r := Task.run Task.glob_literal kwargs w in
  let out := xml_encoding ++ "<Layout xmlns=" ++ dq ++ SF_NS ++ dq ++ ">" ++ nl
             ++ "  </Layout>" ++ nl in
  fst r = Task.Ok tt
  /\ Task.files (snd r) = [("layout.xml", out)]
  /\ Task.writes (snd r) = [("layout.xml", out)]
  /\ (exists xdoc root',
         Xml.parse Spec.layout_xml = Some xdoc
         /\ XPath.xpath xdoc "//ns:relatedLists" Task.namespaces = Some [[0]]
         /\ Task.remove_all [[0]] xdoc = Task.Ok root'
         /\ text (getroot root') = Some (nl ++ "  ")
         /\ children (getroot root') = []
         /\ has_content (getroot root') = true
         /\ snd (salesforce_encoding root') = out).
Proof.
  cbv zeta. split; [|split; [|split]]; try (vm_compute; reflexivity).
  eexists. eexists. split; [vm_compute; reflexivity|].
  repeat split; vm_compute; reflexivity.
Qed.

(** C3, as stated, fails: the text written is not the self-closed root
    followed by a newline. *)
Lemma scenario_output_not_self_closed :
  let w := Task.mkWorld [("layout.xml", Spec.layout_xml)] [] [] in
  let kwargs :=
    Task.mkOptions (Some "//ns:relatedLists") (Some "layout.xml") None None in
  let r := Task.run Task.glob_literal kwargs w in
  let claimed := xml_encoding ++ "<Layout xmlns=" ++ dq ++ SF_NS ++ dq ++ "/>" ++ nl in
  exists out,
    Task.writes (snd r) = [("layout.xml", out)]
    /\ String.eqb out claimed = false.
Proof. cbv zeta. eexists. split; vm_compute; reflexivity. Qed.

(** * The parser reads what the serializer writes *)

(** ** Lexical pieces *)

Lemma forallb_string_app (p : ascii -> bool) (a b : string) :
  Xml.forallb_string p (a ++ b)
  = Xml.forallb_string p a && Xml.forallb_string p b.
Proof.
  induction a as [|c a IH]; cbn; [reflexivity|].
  rewrite IH. now rewrite andb_assoc.
Qed.

Lemma forallb_string_impl (p q : ascii -> bool) (s : string) :
  (forall c, p c = true -> q c = true) ->
  Xml.forallb_string p s = true -> Xml.forallb_string q s = true.
Proof.
  intros Hpq. induction s as [|c s IH]; cbn; [reflexivity|].
  intros H. apply andb_true_iff in H as [Hc Hs].
  rewrite (Hpq c Hc). now apply IH.
Qed.

Lemma span_app (p : ascii -> bool) (a b : string) :
  Xml.forallb_string p a = true -> Spec.stops p b -> Xml.span p (a ++ b) = (a, b).
Proof.
  intros Ha Hb. induction a as [|c a IH]; cbn in *.
  - destruct b as [|d b]; cbn in *; [reflexivity | now rewrite Hb].
  - apply andb_true_iff in Ha as [Hc Ha]. rewrite Hc, (IH Ha). reflexivity.
Qed.

Lemma strip_prefix_app (p s : string) : Xml.strip_prefix p (p ++ s) = Some s.
Proof.
  induction p as [|c p IH]; cbn; [reflexivity|].
  now rewrite Ascii.eqb_refl.
Qed.

Lemma skip_ws_stops (s : string) : Spec.stops Xml.is_ws s -> Xml.skip_ws s = s.
Proof.
  intros H. unfold Xml.skip_ws.
  change s with (EmptyString ++ s) at 1. now rewrite span_app.
Qed.

Lemma skip_ws_all (s : string) :
  Xml.forallb_string Xml.is_ws s = true -> Xml.skip_ws s = EmptyString.
Proof.
  intros H. unfold Xml.skip_ws.
  rewrite <- (append_nil_r s) at 1. now rewrite span_app.
Qed.

(** ** Entity references *)

Lemma unescape_plain (s : string) :
  Xml.forallb_string (fun c => negb (Ascii.eqb c "&")) s = true ->
  Xml.unescape s = Some s.
Proof.
  unfold Xml.unescape. induction s as [|c s IH]; cbn; [reflexivity|].
  intros H. apply andb_true_iff in H as [Hc Hs].
  apply negb_true_iff in Hc. rewrite Hc, (IH Hs). reflexivity.
Qed.

Lemma unescape_escaped (t : string) : Xml.unescape (Spec.escaped t) = Some t.
Proof.
  unfold Xml.unescape. induction t as [|c t IH]; [reflexivity|].
  cbn [Spec.escaped]. unfold Spec.esc_char.
  destruct (Ascii.eqb c "'") eqn:E1.
  { apply Ascii.eqb_eq in E1. subst c. cbn. now rewrite IH. }
  destruct (Ascii.eqb c "034") eqn:E2.
  { apply Ascii.eqb_eq in E2. subst c. cbn. now rewrite IH. }
  destruct (Ascii.eqb c "&") eqn:E3.
  { apply Ascii.eqb_eq in E3. subst c. cbn. now rewrite IH. }
  destruct (Ascii.eqb c "<") eqn:E4.
  { apply Ascii.eqb_eq in E4. subst c. cbn. now rewrite IH. }
  destruct (Ascii.eqb c ">") eqn:E5.
  { apply Ascii.eqb_eq in E5. subst c. cbn. now rewrite IH. }
  cbn [append Xml.unescape_from]. now rewrite E3, IH.
Qed.

Lemma escaped_text_chars (t : string) :
  Spec.is_text_ok t = true ->
  Xml.forallb_string Xml.is_text_char (Spec.escaped t) = true.
Proof.
  unfold Spec.is_text_ok. induction t as [|c t IH]; cbn; [reflexivity|].
  intros H. apply andb_true_iff in H as [Hc Ht].
  rewrite forallb_string_app, (IH Ht), andb_true_r.
  unfold Spec.esc_char.
  destruct (Ascii.eqb c "'") eqn:E1; [reflexivity|].
  destruct (Ascii.eqb c "034") eqn:E2; [reflexivity|].
  destruct (Ascii.eqb c "&") eqn:E3; [reflexivity|].
  destruct (Ascii.eqb c "<") eqn:E4; [reflexivity|].
  destruct (Ascii.eqb c ">") eqn:E5; [reflexivity|].
  cbn. unfold Xml.is_text_char. now rewrite Hc, E4, E5.
Qed.

Lemma text_char_not_lt (s : string) :
  Xml.forallb_string Xml.is_text_char s = true ->
  Xml.forallb_string (fun c => negb (Ascii.eqb c "<")) s = true.
Proof.
  apply forallb_string_impl. intros c. unfold Xml.is_text_char.
  intros H. apply andb_true_iff in H as [H _].
  now apply andb_true_iff in H as [_ H].
Qed.

(** ** Character data *)

Lemma stops_lt (s : string) :
  Spec.starts_with "<" s -> Spec.stops (fun c => negb (Ascii.eqb c "<")) s.
Proof. intros [s' ->]. reflexivity. Qed.

Lemma chardata_text (t rest : string) :
  Spec.is_text_ok t = true -> Spec.starts_with "<" rest ->
  Xml.chardata (Spec.escaped t ++ rest) = Some (t, rest).
Proof.
  intros Ht Hrest. unfold Xml.chardata.
  pose proof (escaped_text_chars t Ht) as Hchars.
  rewrite span_app by auto using text_char_not_lt, stops_lt.
  now rewrite Hchars, unescape_escaped.
Qed.

Lemma chardata_tail (t rest : string) :
  Spec.is_tail_ok t = true -> Spec.starts_with "<" rest ->
  Xml.chardata (t ++ rest) = Some (t, rest).
Proof.
  intros Ht Hrest. unfold Xml.chardata.
  assert (Hchars : Xml.forallb_string Xml.is_text_char t = true).
  { revert Ht. apply forallb_string_impl. intros c H.
    now apply andb_true_iff in H as [H _]. }
  assert (Hamp : Xml.forallb_string (fun c => negb (Ascii.eqb c "&")) t = true).
  { revert Ht. apply forallb_string_impl. intros c H.
    now apply andb_true_iff in H as [_ H]. }
  rewrite span_app by auto using text_char_not_lt, stops_lt.
  now rewrite Hchars, unescape_plain.
Qed.

(** ** Names *)

Lemma ncname_chars (n : string) :
  XPath.is_ncname n = true ->
  exists c n', n = String c n' /\ Xml.is_name_start c = true
               /\ Xml.forallb_string Xml.is_name_char n = true.
Proof.
  unfold XPath.is_ncname. destruct n as [|c n']; [discriminate|].
  intros H. apply andb_true_iff in H as [H1 H2]. now exists c, n'.
Qed.

Lemma parse_name_app (n rest : string) :
  XPath.is_ncname n = true -> Spec.stops Xml.is_name_char rest ->
  Xml.parse_name (n ++ rest) = Some (n, rest).
Proof.
  intros Hn Hrest. destruct (ncname_chars n Hn) as (c & n' & -> & Hc & Hall).
  unfold Xml.parse_name. rewrite span_app by assumption. now rewrite Hc.
Qed.

Lemma name_start_not_special (c : ascii) :
  Xml.is_name_start c = true ->
  Xml.is_ws c = false /\ Ascii.eqb c "/" = false /\ Ascii.eqb c ">" = false
  /\ Ascii.eqb c "!" = false /\ Ascii.eqb "/" c = false
  /\ Ascii.eqb "!" c = false.
Proof.
  intros H. unfold Xml.is_ws.
  repeat match goal with
         | |- context [Ascii.eqb c ?d] =>
             let E := fresh "E" in
             destruct (Ascii.eqb c d) eqn:E;
             [apply Ascii.eqb_eq in E; subst c; discriminate H|]
         | |- context [Ascii.eqb ?d c] =>
             let E := fresh "E" in
             destruct (Ascii.eqb d c) eqn:E;
             [apply Ascii.eqb_eq in E; subst c; discriminate H|]
         end.
  repeat split; reflexivity.
Qed.

Lemma ncname_head (n rest : string) :
  XPath.is_ncname n = true ->
  exists c s', n ++ rest = String c s' /\ Xml.is_name_start c = true.
Proof.
  intros H. destruct (ncname_chars n H) as (c & n' & -> & Hc & _).
  now exists c, (n' ++ rest).
Qed.

(** ** Attributes *)

Lemma value_ok_facts (v : string) :
  Spec.is_value_ok v = true ->
  Xml.forallb_string Xml.is_value_char v = true
  /\ Xml.forallb_string (fun c => negb (Ascii.eqb c "&")) v = true
  /\ Xml.forallb_string (fun c => negb (Ascii.eqb c "034")) v = true.
Proof.
  intros H. repeat split; revert H; apply forallb_string_impl; intros c H;
    apply andb_true_iff in H as [H1 H2]; auto.
  unfold Xml.is_value_char in H1. now apply andb_true_iff in H1 as [_ H1].
Qed.

Lemma parse_value_app (v rest : string) :
  Spec.is_value_ok v = true ->
  Xml.parse_value (v ++ dq ++ rest) = Some (v, rest).
Proof.
  intros H. destruct (value_ok_facts v H) as (H1 & H2 & H3).
  unfold Xml.parse_value. rewrite span_app; [|exact H3|reflexivity].
  cbn [dq append]. now rewrite H1, unescape_plain.
Qed.

Lemma parse_attrs_S (fuel : nat) (s : string) :
  Xml.parse_attrs (S fuel) s
  = let (w, r) := Xml.span Xml.is_ws s in
    match r with
    | EmptyString => None
    | String c _ =>
        if Ascii.eqb c "/" || Ascii.eqb c ">" then Some ([], r)
        else
          match w with
          | EmptyString => None
          | String _ _ =>
              match Xml.parse_name r with
              | Some (k, r1) =>
                  match Xml.strip_prefix "=" r1 with
                  | Some r2 =>
                      match Xml.strip_prefix dq r2 with
                      | Some r3 =>
                          match Xml.parse_value r3 with
                          | Some (v, r4) =>
                              match Xml.parse_attrs fuel r4 with
                              | Some (rest, r5) => Some ((k, v) :: rest, r5)
                              | None => None
                              end
                          | None => None
                          end
                      | None => None
                      end
                  | None => None
                  end
              | None => None
              end
          end
    end.
Proof. reflexivity. Qed.

Lemma parse_attrs_app (a : list (string * string)) :
  forallb Spec.attr_ok a = true ->
  forall fuel rest,
    List.length a < fuel ->
    Spec.starts_with "/" rest \/ Spec.starts_with ">" rest ->
    Xml.parse_attrs fuel (attrs_of a ++ rest) = Some (a, rest).
Proof.
  induction a as [|[k v] a IH]; intros Hok fuel rest Hfuel Hrest;
    (destruct fuel as [|fuel]; [inversion Hfuel|]).
  - destruct Hrest as [[s' ->]|[s' ->]]; reflexivity.
  - cbn [forallb] in Hok. apply andb_true_iff in Hok as [Hkv Hok].
    unfold Spec.attr_ok in Hkv. cbn [fst snd] in Hkv.
    apply andb_true_iff in Hkv as [Hkv _].
    apply andb_true_iff in Hkv as [Hk Hv].
    rewrite attrs_of_cons. cbn [fst snd]. rewrite !append_assoc.
    rewrite parse_attrs_S.
    destruct (ncname_head k ("=" ++ dq ++ v ++ dq ++ attrs_of a ++ rest) Hk)
      as (c & s' & E & Hc).
    destruct (name_start_not_special c Hc) as (Hws & Hsl & Hgt & _).
    rewrite (span_app Xml.is_ws " ");
      [|reflexivity | rewrite E; exact Hws].
    rewrite E, Hsl, Hgt. cbn [orb]. rewrite <- E.
    rewrite parse_name_app; [|exact Hk|reflexivity].
    rewrite strip_prefix_app, strip_prefix_app, parse_value_app by exact Hv.
    rewrite IH; auto. simpl in Hfuel. lia.
Qed.

Lemma attrs_of_length (a : list (string * string)) :
  List.length a <= String.length (attrs_of a).
Proof.
  induction a as [|kv a IH]; [cbn; lia|].
  rewrite attrs_of_cons. simpl. rewrite length_append. simpl.
  rewrite length_append. simpl. lia.
Qed.

Lemma attrib_get_xmlns_nonempty (a : list (string * string)) :
  forallb Spec.attr_ok a = true ->
  attrib_get "xmlns" a <> Some EmptyString.
Proof.
  induction a as [|[k v] a IH]; cbn [forallb attrib_get]; [discriminate|].
  intros H. apply andb_true_iff in H as [Hkv Ha].
  destruct (String.eqb k "xmlns") eqn:E; [|now apply IH].
  unfold Spec.attr_ok, Xml.not_xmlns in Hkv. cbn [fst snd] in Hkv.
  rewrite E in Hkv. destruct v; [|discriminate].
  now rewrite andb_false_r in Hkv.
Qed.

(** ** Comments *)

Lemma until_dashes_app (s rest : string) :
  Spec.no_double_dash s = true ->
  Xml.until_dashes (s ++ "-->" ++ rest) = Some (s, ">" ++ rest).
Proof.
  induction s as [|c s IH]; [reflexivity|].
  cbn [Spec.no_double_dash append Xml.until_dashes].
  destruct (Ascii.eqb c "-") eqn:E.
  - destruct s as [|d s]; [discriminate|].
    intros H. apply andb_true_iff in H as [Hd Hs].
    apply negb_true_iff in Hd. cbn [append]. rewrite Hd.
    specialize (IH Hs). cbn [append] in IH. now rewrite IH.
  - intros H. specialize (IH H). cbn [append] in IH. now rewrite IH.
Qed.

Lemma parse_comment_app (c : comment) (rest : string) :
  Xml.forallb_string Xml.is_plain (ctext c) = true ->
  Spec.no_double_dash (ctext c) = true ->
  Xml.parse_comment (str_comment c ++ rest) = Some (ctext c, rest).
Proof.
  intros Hplain Hdd. unfold Xml.parse_comment, str_comment.
  rewrite !append_assoc, strip_prefix_app, until_dashes_app by exact Hdd.
  cbn [append Xml.strip_prefix]. rewrite Ascii.eqb_refl. now rewrite Hplain.
Qed.

(** ** Tags *)

Lemma attrs_stop_name (a : list (string * string)) (rest : string) :
  Spec.starts_with "/" rest \/ Spec.starts_with ">" rest ->
  Spec.stops Xml.is_name_char (attrs_of a ++ rest).
Proof.
  intros H. destruct a as [|kv a].
  - destruct H as [[s' ->]|[s' ->]]; reflexivity.
  - rewrite attrs_of_cons. reflexivity.
Qed.

Lemma attrs_ok_facts (a : list (string * string)) :
  Spec.attrs_ok a = true ->
  forallb Spec.attr_ok a = true /\ Xml.nodup_keys a = true.
Proof. intros H. now apply andb_true_iff in H. Qed.

Lemma parse_start_tag_app (e : element) (ns rest : string) :
  XPath.is_ncname (local_tag (tag e)) = true ->
  Spec.attrs_ok (attrib e) = true ->
  Spec.starts_with "/" rest \/ Spec.starts_with ">" rest ->
  Xml.parse_start_tag ns (open_tag e ++ rest)
  = Some (Xml.mkStartTag (local_tag (tag e))
            (match attrib_get "xmlns" (attrib e) with
             | Some v => v
             | None => ns
             end)
            (match attrib_get "xmlns" (attrib e) with
             | Some v => [(EmptyString, v)]
             | None => []
             end)
            (filter Xml.not_xmlns (attrib e)), rest).
Proof.
  intros Hname Hattrs Hrest.
  destruct (attrs_ok_facts _ Hattrs) as [Hall Hnodup].
  unfold Xml.parse_start_tag, open_tag.
  rewrite !append_assoc, strip_prefix_app.
  rewrite parse_name_app by auto using attrs_stop_name.
  rewrite parse_attrs_app; auto.
  - rewrite Hnodup. cbn [negb].
    pose proof (attrib_get_xmlns_nonempty _ Hall) as Hne.
    destruct (attrib_get "xmlns" (attrib e)) as [[|c v]|]; [now elim Hne| |];
      reflexivity.
  - rewrite length_append. pose proof (attrs_of_length (attrib e)). lia.
Qed.

Lemma parse_end_tag_app (name rest : string) :
  XPath.is_ncname name = true ->
  Xml.parse_end_tag name ("</" ++ name ++ ">" ++ rest) = Some rest.
Proof.
  intros H. unfold Xml.parse_end_tag.
  rewrite strip_prefix_app, parse_name_app; [|exact H|reflexivity].
  rewrite String.eqb_refl, skip_ws_stops by reflexivity.
  apply (strip_prefix_app ">").
Qed.

(** ** Shape of what is written *)

Lemma render_split (e : element) :
  render e = Spec.head_written e ++ Spec.tail_written e.
Proof.
  rewrite render_unfold. unfold Spec.head_written, Spec.tail_written, close_tag.
  destruct (has_content e); now rewrite ?append_assoc, ?append_nil_r.
Qed.

Lemma escaped_text_spec (e : element) :
  escaped_text e = Spec.escaped (Spec.text_or_empty (text e)).
Proof. rewrite escaped_text_escaped. now destruct (text e). Qed.

Lemma head_written_shape (e : element) (rest : string) :
  XPath.is_ncname (local_tag (tag e)) = true ->
  exists x s', Spec.head_written e ++ rest = String "<" (String x s')
               /\ Xml.is_name_start x = true.
Proof.
  intros H. destruct (ncname_chars _ H) as (x & n' & E & Hx & _).
  unfold Spec.head_written, open_tag. rewrite E.
  destruct (has_content e); cbn [append]; eauto.
Qed.

Lemma not_end_tag (x : ascii) (s : string) :
  Xml.is_name_start x = true ->
  String.prefix "</" (String "<" (String x s)) = false
  /\ String.prefix "<!--" (String "<" (String x s)) = false.
Proof.
  intros H. cbn [String.prefix].
  destruct (ascii_dec "<" "<") as [_|N]; [|now elim N].
  split.
  - destruct (ascii_dec "/" x) as [<-|_]; [discriminate H | reflexivity].
  - destruct (ascii_dec "!" x) as [<-|_]; [discriminate H | reflexivity].
Qed.

Lemma render_nodes_starts (cs : list node) (rest : string) :
  Spec.printable_nodes cs = true ->
  Spec.starts_with "<" (render_nodes cs ++ "</" ++ rest).
Proof.
  destruct cs as [|[c|c] cs]; intros H.
  - now exists ("/" ++ rest).
  - change (render_nodes (NElem c :: cs)) with (render c ++ render_nodes cs).
    rewrite render_unfold. unfold open_tag.
    destruct (has_content c); cbn [append]; eexists; reflexivity.
  - change (render_nodes (NComment c :: cs))
      with (render_comment c ++ render_nodes cs).
    unfold render_comment, str_comment. cbn [append]. eexists; reflexivity.
Qed.

Lemma cost_unfold (e : element) :
  Spec.cost e = 1 + Spec.cost_nodes (children e).
Proof. destruct e; reflexivity. Qed.

Lemma cost_pos (e : element) : 1 <= Spec.cost e.
Proof. rewrite cost_unfold. apply Nat.le_add_r. Qed.

Lemma cost_nodes_pos (cs : list node) : 1 <= Spec.cost_nodes cs.
Proof.
  destruct cs as [|[c|c] cs].
  - apply Nat.le_refl.
  - change (1 <= Spec.cost c + Spec.cost_nodes cs).
    pose proof (cost_pos c). lia.
  - change (1 <= 1 + Spec.cost_nodes cs). lia.
Qed.

Lemma printable_unfold (e : element) :
  Spec.printable e
  = XPath.is_ncname (local_tag (tag e)) && Spec.attrs_ok (attrib e)
    && (if has_content e
        then Spec.is_text_ok (Spec.text_or_empty (text e))
             && Spec.printable_nodes (children e)
        else true).
Proof. destruct e; reflexivity. Qed.

Lemma norm_unfold (ns : string) (e : element) :
  Spec.norm ns e
  = mkElement
      (Xml.qualify (match attrib_get "xmlns" (attrib e) with
                    | Some v => v
                    | None => ns
                    end) (local_tag (tag e)))
      (match attrib_get "xmlns" (attrib e) with
       | Some v => [(EmptyString, v)]
       | None => []
       end)
      (filter Xml.not_xmlns (attrib e))
      (if has_content e
       then Xml.to_opt (Spec.text_or_empty (text e)) else None)
      (if has_content e
       then Spec.norm_nodes (match attrib_get "xmlns" (attrib e) with
                             | Some v => v
                             | None => ns
                             end) (children e)
       else [])
      None.
Proof. destruct e; reflexivity. Qed.

(** ** Elements and their content *)

Lemma prefix_app (p s : string) : String.prefix p (p ++ s) = true.
Proof.
  induction p as [|c p IH]; [destruct s; reflexivity|].
  cbn [append String.prefix]. destruct (ascii_dec c c) as [_|N]; [exact IH|].
  now elim N.
Qed.

Lemma parse_element_S (fuel : nat) (ns s : string) :
  Xml.parse_element (S fuel) ns s
  = match Xml.parse_start_tag ns s with
    | Some (st, s1) =>
        let tag := Xml.qualify (Xml.st_ns st) (Xml.st_name st) in
        match Xml.strip_prefix "/>" s1 with
        | Some s2 =>
            Some (mkElement tag (Xml.st_nsdecl st) (Xml.st_attrib st) None []
                    None, s2)
        | None =>
            match Xml.strip_prefix ">" s1 with
            | Some s2 =>
                match Xml.chardata s2 with
                | Some (txt, s3) =>
                    match Xml.parse_nodes fuel (Xml.st_ns st) s3 with
                    | Some (kids, s4) =>
                        match Xml.parse_end_tag (Xml.st_name st) s4 with
                        | Some s5 =>
                            Some (mkElement tag (Xml.st_nsdecl st)
                                    (Xml.st_attrib st) (Xml.to_opt txt) kids
                                    None, s5)
                        | None => None
                        end
                    | None => None
                    end
                | None => None
                end
            | None => None
            end
        end
    | None => None
    end.
Proof. reflexivity. Qed.

Lemma parse_nodes_S (fuel : nat) (ns s : string) :
  Xml.parse_nodes (S fuel) ns s
  = if String.prefix "</" s then Some ([], s)
    else if String.prefix "<!--" s then
      match Xml.parse_comment s with
      | Some (c, s1) =>
          match Xml.chardata s1 with
          | Some (tl, s2) =>
              match Xml.parse_nodes fuel ns s2 with
              | Some (rest, s3) =>
                  Some (NComment (mkComment c (Xml.to_opt tl)) :: rest, s3)
              | None => None
              end
          | None => None
          end
      | None => None
      end
    else
      match Xml.parse_element fuel ns s with
      | Some (e, s1) =>
          match Xml.chardata s1 with
          | Some (tl, s2) =>
              match Xml.parse_nodes fuel ns s2 with
              | Some (rest, s3) =>
                  Some (NElem (set_tail (Xml.to_opt tl) e) :: rest, s3)
              | None => None
              end
          | None => None
          end
      | None => None
      end.
Proof. reflexivity. Qed.

Lemma comment_ok_facts (c : comment) :
  Spec.comment_ok c = true ->
  Xml.forallb_string Xml.is_plain (ctext c) = true
  /\ Spec.no_double_dash (ctext c) = true
  /\ Spec.is_tail_ok (or_else (ctail c) EmptyString) = true.
Proof.
  unfold Spec.comment_ok. intros H.
  apply andb_true_iff in H as [H H3]. apply andb_true_iff in H as [H1 H2].
  auto.
Qed.

Lemma parse_nodes_render (cs : list node) :
  All Spec.reads_back cs ->
  Spec.printable_nodes cs = true ->
  forall fuel ns rest,
    Spec.cost_nodes cs <= fuel ->
    Xml.parse_nodes fuel ns (render_nodes cs ++ "</" ++ rest)
    = Some (Spec.norm_nodes ns cs, "</" ++ rest).
Proof.
  induction cs as [|[c|c] cs IH]; intros Hall Hp fuel ns rest Hfuel.
  - destruct fuel as [|fuel]; [inversion Hfuel|].
    rewrite parse_nodes_S.
    change (render_nodes [] ++ "</" ++ rest) with ("</" ++ rest).
    now rewrite prefix_app.
  - change (Spec.cost_nodes (NElem c :: cs))
      with (Spec.cost c + Spec.cost_nodes cs) in Hfuel.
    change (Spec.printable_nodes (NElem c :: cs))
      with (Spec.printable c && Spec.is_tail_ok (Spec.tail_written c)
            && Spec.printable_nodes cs) in Hp.
    apply andb_true_iff in Hp as [Hp Hpcs]. apply andb_true_iff in Hp as [Hpc Htl].
    destruct Hall as [Hc Hcs].
    pose proof (cost_pos c). pose proof (cost_nodes_pos cs).
    destruct fuel as [|fuel]; [lia|].
    change (render_nodes (NElem c :: cs)) with (render c ++ render_nodes cs).
    rewrite render_split, !append_assoc, parse_nodes_S.
    assert (Hname : XPath.is_ncname (local_tag (tag c)) = true).
    { rewrite printable_unfold in Hpc. apply andb_true_iff in Hpc as [Hpc _].
      now apply andb_true_iff in Hpc as [Hpc _]. }
    destruct (head_written_shape c
                (Spec.tail_written c ++ render_nodes cs ++ "</" ++ rest) Hname)
      as (x & s' & E & Hx).
    destruct (not_end_tag x s' Hx) as [N1 N2].
    rewrite E, N1, N2, <- E.
    rewrite (Hc Hpc) by lia.
    rewrite chardata_tail by auto using render_nodes_starts.
    rewrite IH by (auto; lia). reflexivity.
  - change (Spec.cost_nodes (NComment c :: cs))
      with (1 + Spec.cost_nodes cs) in Hfuel.
    change (Spec.printable_nodes (NComment c :: cs))
      with (Spec.comment_ok c && Spec.printable_nodes cs) in Hp.
    apply andb_true_iff in Hp as [Hpc Hpcs].
    destruct (comment_ok_facts c Hpc) as (H1 & H2 & H3).
    destruct fuel as [|fuel]; [lia|].
    change (render_nodes (NComment c :: cs))
      with (render_comment c ++ render_nodes cs).
    unfold render_comment. rewrite !append_assoc, parse_nodes_S.
    assert (P1 : String.prefix "</"
                   (str_comment c ++ or_else (ctail c) EmptyString
                    ++ render_nodes cs ++ "</" ++ rest) = false)
      by (unfold str_comment; rewrite !append_assoc; reflexivity).
    assert (P2 : String.prefix "<!--"
                   (str_comment c ++ or_else (ctail c) EmptyString
                    ++ render_nodes cs ++ "</" ++ rest) = true)
      by (unfold str_comment; rewrite !append_assoc; apply prefix_app).
    rewrite P1, P2, parse_comment_app by assumption.
    rewrite chardata_tail by auto using render_nodes_starts.
    rewrite IH by (auto; lia). reflexivity.
Qed.

Lemma parse_element_render (e : element) : Spec.reads_back e.
Proof.
  induction e as [g n a x cs t IH] using element_induction.
  intros Hp fuel ns rest Hfuel.
  rewrite cost_unfold in Hfuel. cbn [children] in Hfuel.
  destruct fuel as [|fuel]; [lia|].
  rewrite printable_unfold in Hp.
  apply andb_true_iff in Hp as [Hp Hcontent].
  apply andb_true_iff in Hp as [Hname Hattrs].
  rewrite parse_element_S, norm_unfold. unfold Spec.head_written.
  destruct (has_content (mkElement g n a x cs t)) eqn:Hc.
  - apply andb_true_iff in Hcontent as [Htext Hnodes].
    rewrite !append_assoc.
    rewrite parse_start_tag_app; auto; [|right; eexists; reflexivity].
    cbn [Xml.st_ns Xml.st_name Xml.st_nsdecl Xml.st_attrib].
    match goal with
    | |- context [Xml.strip_prefix "/>" (">" ++ ?X)] =>
        change (Xml.strip_prefix "/>" (">" ++ X)) with (@None string);
        rewrite (strip_prefix_app ">" X)
    end.
    rewrite escaped_text_spec.
    rewrite chardata_text; auto;
      [|apply (render_nodes_starts cs); exact Hnodes].
    cbn [children] in *.
    rewrite parse_nodes_render; auto; [|lia].
    rewrite parse_end_tag_app by exact Hname. reflexivity.
  - rewrite !append_assoc.
    rewrite (parse_start_tag_app _ ns ("/>" ++ rest) Hname Hattrs
               (or_introl (ex_intro _ _ eq_refl))).
    cbn [Xml.st_ns Xml.st_name Xml.st_nsdecl Xml.st_attrib].
    rewrite (strip_prefix_app "/>" rest). reflexivity.
Qed.

(** ** Enough fuel *)

Lemma has_content_false_children (e : element) :
  has_content e = false -> children e = [].
Proof.
  unfold has_content. intros H. apply orb_false_elim in H as [_ H].
  now destruct (children e).
Qed.

Lemma cost_nodes_le (cs : list node) :
  All (fun c => Spec.cost c <= String.length (Spec.head_written c)) cs ->
  Spec.cost_nodes cs <= String.length (render_nodes cs) + 1.
Proof.
  induction cs as [|[c|c] cs IH]; intros H.
  - cbn. lia.
  - destruct H as [Hc Hcs]. specialize (IH Hcs).
    change (Spec.cost_nodes (NElem c :: cs))
      with (Spec.cost c + Spec.cost_nodes cs).
    change (render_nodes (NElem c :: cs)) with (render c ++ render_nodes cs).
    rewrite render_split, !length_append. lia.
  - specialize (IH H).
    change (Spec.cost_nodes (NComment c :: cs)) with (1 + Spec.cost_nodes cs).
    change (render_nodes (NComment c :: cs))
      with (render_comment c ++ render_nodes cs).
    unfold render_comment, str_comment.
    repeat first [rewrite length_append | progress cbn [String.length append]].
    lia.
Qed.

Lemma cost_le_length (e : element) :
  Spec.cost e <= String.length (Spec.head_written e).
Proof.
  induction e as [g n a x cs t IH] using element_induction.
  rewrite cost_unfold. unfold Spec.head_written, open_tag.
  destruct (has_content (mkElement g n a x cs t)) eqn:Hc.
  - cbn [children]. pose proof (cost_nodes_le cs IH).
    repeat first [rewrite length_append | progress cbn [String.length append]].
    lia.
  - rewrite (has_content_false_children _ Hc).
    repeat first [rewrite length_append | progress cbn [String.length append]].
    change (Spec.cost_nodes []) with 1. lia.
Qed.

(** The parser reads the document written for a printable root from which
    nothing but blanks follows. *)
Lemma parse_render_document (root : element) :
  Spec.printable root = true ->
  Xml.forallb_string Xml.is_ws (Spec.tail_written root) = true ->
  Xml.parse (xml_encoding ++ render root)
  = Some (mkTree (Spec.norm EmptyString root)).
Proof.
  intros Hp Htail. unfold Xml.parse.
  change xml_encoding with (Xml.xml_decl ++ nl).
  rewrite append_assoc, strip_prefix_app.
  rewrite render_split.
  assert (Hname : XPath.is_ncname (local_tag (tag root)) = true).
  { rewrite printable_unfold in Hp. apply andb_true_iff in Hp as [Hp _].
    now apply andb_true_iff in Hp as [Hp _]. }
  assert (Hskip : Xml.skip_ws
                    (nl ++ Spec.head_written root ++ Spec.tail_written root)
                  = Spec.head_written root ++ Spec.tail_written root).
  { unfold Xml.skip_ws. rewrite span_app; [reflexivity | reflexivity |].
    destruct (head_written_shape root (Spec.tail_written root) Hname)
      as (y & s' & -> & _). reflexivity. }
  rewrite Hskip.
  rewrite (parse_element_render root Hp).
  - now rewrite (skip_ws_all _ Htail).
  - rewrite length_append. pose proof (cost_le_length root). lia.
Qed.

(** * The serializer writes again what the parser read *)

(** ** Local names of qualified tags *)

Lemma contains_char_false (c : ascii) (s : string) :
  Xml.forallb_string (fun x => negb (Ascii.eqb x c)) s = true ->
  Py.contains (String c EmptyString) s = false.
Proof.
  induction s as [|x s IH]; [reflexivity|].
  cbn [Xml.forallb_string]. intros H. apply andb_true_iff in H as [Hx Hs].
  rewrite contains_unfold. cbn [String.prefix].
  destruct (ascii_dec c x) as [->|_].
  - now rewrite Ascii.eqb_refl in Hx.
  - now apply IH.
Qed.

Lemma contains_char_true (c : ascii) (a b : string) :
  Py.contains (String c EmptyString) (a ++ String c b) = true.
Proof.
  induction a as [|x a IH]; rewrite contains_unfold; cbn [append].
  - pose proof (prefix_app (String c EmptyString) b) as H.
    cbn [append] in H. now rewrite H.
  - now destruct (String.prefix (String c EmptyString) (String x (a ++ String c b))).
Qed.

Lemma split_none (sep : ascii) (s : string) :
  Xml.forallb_string (fun x => negb (Ascii.eqb x sep)) s = true ->
  Py.split sep s = [s].
Proof.
  induction s as [|x s IH]; [reflexivity|].
  cbn [Xml.forallb_string Py.split]. intros H.
  apply andb_true_iff in H as [Hx Hs]. apply negb_true_iff in Hx.
  now rewrite Hx, (IH Hs).
Qed.

Lemma split_app (sep : ascii) (a b : string) :
  Xml.forallb_string (fun x => negb (Ascii.eqb x sep)) a = true ->
  Py.split sep (a ++ String sep b) = a :: Py.split sep b.
Proof.
  induction a as [|x a IH]; cbn [append Py.split Xml.forallb_string].
  - now rewrite Ascii.eqb_refl.
  - intros H. apply andb_true_iff in H as [Hx Hs]. apply negb_true_iff in Hx.
    now rewrite Hx, (IH Hs).
Qed.

Lemma ncname_no_rbrace (name : string) :
  XPath.is_ncname name = true ->
  Xml.forallb_string Spec.not_rbrace name = true.
Proof.
  intros H. destruct (ncname_chars name H) as (c & n' & _ & _ & Hall).
  revert Hall. apply forallb_string_impl. intros x Hx. unfold Spec.not_rbrace.
  destruct (Ascii.eqb x "}") eqn:E; [|reflexivity].
  apply Ascii.eqb_eq in E. subst x. discriminate Hx.
Qed.

Lemma local_tag_plain (name : string) :
  XPath.is_ncname name = true -> local_tag name = name.
Proof.
  intros H. unfold local_tag.
  now rewrite (contains_char_false "}" name (ncname_no_rbrace name H)).
Qed.

Lemma local_tag_qualify (ns name : string) :
  Xml.forallb_string Spec.not_rbrace ns = true ->
  XPath.is_ncname name = true ->
  local_tag (Xml.qualify ns name) = name.
Proof.
  intros Hns Hname. destruct ns as [|c ns]; [now apply local_tag_plain|].
  unfold Xml.qualify, local_tag.
  change ("{" ++ String c ns ++ "}" ++ name)
    with (("{" ++ String c ns) ++ String "}" name).
  rewrite contains_char_true, split_app.
  - rewrite split_none by now apply ncname_no_rbrace. reflexivity.
  - exact Hns.
Qed.

Lemma prefix_forallb (p : ascii -> bool) (sub s : string) :
  String.prefix sub s = true -> Xml.forallb_string p s = true ->
  Xml.forallb_string p sub = true.
Proof.
  revert s. induction sub as [|c sub IH]; intros s H Hs; [reflexivity|].
  destruct s as [|x s]; [discriminate|]. cbn in H, Hs |- *.
  destruct (ascii_dec c x) as [->|_]; [|discriminate].
  apply andb_true_iff in Hs as [Hx Hs]. rewrite Hx. now apply (IH s).
Qed.

Lemma contains_forallb (p : ascii -> bool) (sub s : string) :
  Py.contains sub s = true -> Xml.forallb_string p s = true ->
  Xml.forallb_string p sub = true.
Proof.
  induction s as [|x s IH]; rewrite contains_unfold.
  - destruct (String.prefix sub EmptyString) eqn:E; [|discriminate].
    intros _ H. now apply (prefix_forallb p sub EmptyString).
  - destruct (String.prefix sub (String x s)) eqn:E.
    + intros _ H. now apply (prefix_forallb p sub (String x s)).
    + intros H Hs. cbn in Hs. apply andb_true_iff in Hs as [_ Hs]. now apply IH.
Qed.

Lemma ncname_without_namespace (name : string) :
  XPath.is_ncname name = true -> Py.contains SF_NS name = false.
Proof.
  intros H. destruct (ncname_chars name H) as (c & n' & _ & _ & Hall).
  destruct (Py.contains SF_NS name) eqn:E; [|reflexivity].
  pose proof (contains_forallb Xml.is_name_char SF_NS name E Hall) as Habs.
  vm_compute in Habs. discriminate Habs.
Qed.

Lemma contains_app (sub a b : string) :
  Py.contains sub (a ++ sub ++ b) = true.
Proof.
  induction a as [|x a IH]; rewrite contains_unfold.
  - cbn [append]. now rewrite prefix_app.
  - cbn [append]. now destruct (String.prefix sub (String x (a ++ sub ++ b))).
Qed.

Lemma qualified_with_namespace (name : string) :
  Py.contains SF_NS (Xml.qualify SF_NS name) = true.
Proof.
  change (Xml.qualify SF_NS name) with ("{" ++ SF_NS ++ "}" ++ name).
  apply contains_app.
Qed.

(** ** The normal form is written like the original *)

Lemma head_written_body (e : element) :
  Spec.head_written e = open_tag e ++ Spec.body_written e.
Proof.
  unfold Spec.head_written, Spec.body_written.
  destruct (has_content e); reflexivity.
Qed.

Lemma norm_nodes_nil_iff (ns : string) (cs : list node) :
  Spec.norm_nodes ns cs = [] <-> cs = [].
Proof. destruct cs as [|[c|c] cs]; cbn; split; intros H; try reflexivity; discriminate. Qed.

Lemma truthy_to_opt (o : option string) :
  Py.truthy (Xml.to_opt (Spec.text_or_empty o)) = Py.truthy o.
Proof. now destruct o as [[|c s]|]. Qed.

Lemma text_or_empty_to_opt (s : string) :
  Spec.text_or_empty (Xml.to_opt s) = s.
Proof. now destruct s. Qed.

Lemma or_else_to_opt (o : option string) (d : string) :
  or_else (Xml.to_opt (or_else o d)) d = or_else o d.
Proof. destruct o as [[|c s]|]; destruct d; reflexivity. Qed.

Lemma has_content_norm (ns : string) (e : element) :
  has_content (Spec.norm ns e) = has_content e.
Proof.
  rewrite norm_unfold. destruct (has_content e) eqn:Hc.
  - unfold has_content in *. cbn [text children].
    rewrite truthy_to_opt.
    destruct (Py.truthy (text e)); [reflexivity|]. cbn [orb] in *.
    destruct (children e) as [|[c|c] cs]; [discriminate| |]; reflexivity.
  - reflexivity.
Qed.

Lemma no_xmlns_unfold (e : element) :
  Spec.no_xmlns e
  = forallb Xml.not_xmlns (attrib e) && Spec.no_xmlns_nodes (children e).
Proof. destruct e; reflexivity. Qed.

Lemma filter_all {A : Type} (p : A -> bool) (l : list A) :
  forallb p l = true -> filter p l = l.
Proof.
  induction l as [|x l IH]; cbn; [reflexivity|].
  intros H. apply andb_true_iff in H as [Hx Hl]. now rewrite Hx, IH.
Qed.

Lemma attrib_get_absent (a : list (string * string)) :
  forallb Xml.not_xmlns a = true -> attrib_get "xmlns" a = None.
Proof.
  induction a as [|[k v] a IH]; cbn; [reflexivity|].
  intros H. apply andb_true_iff in H as [Hk Ha].
  unfold Xml.not_xmlns in Hk. cbn [fst] in Hk. apply negb_true_iff in Hk.
  now rewrite Hk, IH.
Qed.

Lemma render_set_tail (t : option string) (e : element) :
  render (set_tail t e)
  = Spec.head_written e ++ (if has_content e then or_else t nl else EmptyString).
Proof.
  rewrite render_split. unfold Spec.tail_written.
  rewrite has_content_set_tail.
  replace (Spec.head_written (set_tail t e)) with (Spec.head_written e)
    by (destruct e; reflexivity).
  now destruct e.
Qed.

Lemma render_nodes_norm (ns : string) (cs : list node) :
  All (Spec.writes_back ns) cs ->
  Spec.printable_nodes cs = true -> Spec.no_xmlns_nodes cs = true ->
  render_nodes (Spec.norm_nodes ns cs) = render_nodes cs.
Proof.
  induction cs as [|[c|c] cs IH]; intros Hall Hp Hx; [reflexivity| |].
  - change (Spec.printable_nodes (NElem c :: cs))
      with (Spec.printable c && Spec.is_tail_ok (Spec.tail_written c)
            && Spec.printable_nodes cs) in Hp.
    change (Spec.no_xmlns_nodes (NElem c :: cs))
      with (Spec.no_xmlns c && Spec.no_xmlns_nodes cs) in Hx.
    apply andb_true_iff in Hp as [Hp Hpcs]. apply andb_true_iff in Hp as [Hpc _].
    apply andb_true_iff in Hx as [Hxc Hxcs]. destruct Hall as [Hc Hcs].
    change (render_nodes (Spec.norm_nodes ns (NElem c :: cs)))
      with (render (set_tail (Xml.to_opt (Spec.tail_written c)) (Spec.norm ns c))
            ++ render_nodes (Spec.norm_nodes ns cs)).
    change (render_nodes (NElem c :: cs)) with (render c ++ render_nodes cs).
    now rewrite (Hc Hpc Hxc), IH.
  - change (Spec.printable_nodes (NComment c :: cs))
      with (Spec.comment_ok c && Spec.printable_nodes cs) in Hp.
    apply andb_true_iff in Hp as [_ Hpcs].
    change (render_nodes (Spec.norm_nodes ns (NComment c :: cs)))
      with (render_comment
              (mkComment (ctext c) (Xml.to_opt (or_else (ctail c) EmptyString)))
            ++ render_nodes (Spec.norm_nodes ns cs)).
    change (render_nodes (NComment c :: cs))
      with (render_comment c ++ render_nodes cs).
    rewrite IH by assumption. unfold render_comment, str_comment.
    cbn [ctext ctail]. now rewrite or_else_to_opt.
Qed.

Lemma local_tag_norm (ns : string) (e : element) :
  Xml.forallb_string Spec.not_rbrace (Spec.ns_inside ns (attrib e)) = true ->
  XPath.is_ncname (local_tag (tag e)) = true ->
  local_tag (tag (Spec.norm ns e)) = local_tag (tag e).
Proof.
  intros Hns Hname. rewrite norm_unfold. cbn [tag].
  now apply local_tag_qualify.
Qed.

Lemma body_written_norm (ns : string) (e : element) :
  Xml.forallb_string Spec.not_rbrace (Spec.ns_inside ns (attrib e)) = true ->
  XPath.is_ncname (local_tag (tag e)) = true ->
  All (Spec.writes_back (Spec.ns_inside ns (attrib e))) (children e) ->
  (has_content e = true -> Spec.printable_nodes (children e) = true) ->
  Spec.no_xmlns_nodes (children e) = true ->
  Spec.body_written (Spec.norm ns e) = Spec.body_written e.
Proof.
  intros Hns Hname Hall Hp Hx. unfold Spec.body_written.
  rewrite has_content_norm, local_tag_norm by assumption.
  destruct (has_content e) eqn:Hc; [|reflexivity].
  rewrite !escaped_text_spec. rewrite norm_unfold, Hc. cbn [text children].
  rewrite text_or_empty_to_opt. fold (Spec.ns_inside ns (attrib e)).
  now rewrite (render_nodes_norm _ _ Hall (Hp eq_refl) Hx).
Qed.

Lemma printable_facts (e : element) :
  Spec.printable e = true ->
  XPath.is_ncname (local_tag (tag e)) = true
  /\ Spec.attrs_ok (attrib e) = true
  /\ (has_content e = true ->
      Spec.is_text_ok (Spec.text_or_empty (text e)) = true
      /\ Spec.printable_nodes (children e) = true).
Proof.
  rewrite printable_unfold. intros H.
  apply andb_true_iff in H as [H H3]. apply andb_true_iff in H as [H1 H2].
  split; [exact H1|]. split; [exact H2|].
  intros Hc. rewrite Hc in H3. now apply andb_true_iff in H3.
Qed.

Lemma writes_back_all (ns : string) :
  Xml.forallb_string Spec.not_rbrace ns = true ->
  forall e, Spec.writes_back ns e.
Proof.
  intros Hns e. induction e as [g n a x cs t IH] using element_induction.
  intros Hp Hx. rewrite no_xmlns_unfold in Hx.
  apply andb_true_iff in Hx as [Hxa Hxcs]. cbn [attrib children] in Hxa, Hxcs.
  destruct (printable_facts _ Hp) as (Hname & Hattrs & Hcontent).
  assert (Hin : Spec.ns_inside ns a = ns)
    by (unfold Spec.ns_inside; now rewrite attrib_get_absent).
  rewrite render_set_tail, render_split, has_content_norm.
  rewrite !head_written_body.
  rewrite body_written_norm; cbn [attrib children]; rewrite ?Hin; auto;
    [|intros Hc; now apply Hcontent].
  unfold open_tag. rewrite local_tag_norm;
    [|cbn [attrib]; now rewrite Hin | exact Hname].
  rewrite norm_unfold. cbn [attrib]. rewrite (filter_all _ _ Hxa).
  unfold Spec.tail_written.
  destruct (has_content (mkElement g n a x cs t));
    now rewrite ?or_else_to_opt.
Qed.

Lemma All_intro (P : element -> Prop) (cs : list node) :
  (forall e, P e) -> All P cs.
Proof.
  intros H. induction cs as [|[c|c] cs IH]; cbn; auto.
Qed.

(** ** The root and its forced attribute *)

Lemma attrib_set_absent (v : string) (a : list (string * string)) :
  forallb Xml.not_xmlns a = true ->
  attrib_set "xmlns" v a = (a ++ [("xmlns", v)])%list.
Proof.
  induction a as [|[k w] a IH]; cbn; [reflexivity|].
  intros H. apply andb_true_iff in H as [Hk Ha].
  unfold Xml.not_xmlns in Hk. cbn [fst] in Hk. apply negb_true_iff in Hk.
  now rewrite Hk, IH.
Qed.

Lemma filter_attrib_set (v : string) (a : list (string * string)) :
  forallb Xml.not_xmlns a = true ->
  filter Xml.not_xmlns (attrib_set "xmlns" v a) = a.
Proof.
  intros H. rewrite attrib_set_absent by exact H.
  rewrite filter_app, (filter_all _ _ H). cbn. apply app_nil_r.
Qed.

Lemma nodup_keys_forced (v : string) (a : list (string * string)) :
  forallb Xml.not_xmlns a = true -> Xml.nodup_keys a = true ->
  Xml.nodup_keys (a ++ [("xmlns", v)]) = true.
Proof.
  induction a as [|[k w] a IH]; [reflexivity|].
  cbn [forallb Xml.nodup_keys app]. intros Hx Hn.
  apply andb_true_iff in Hx as [Hk Hxa]. apply andb_true_iff in Hn as [Hk' Hna].
  rewrite (IH Hxa Hna), andb_true_r.
  rewrite existsb_app. cbn [existsb fst]. rewrite orb_false_r.
  apply negb_true_iff in Hk'. rewrite Hk'. cbn [orb].
  unfold Xml.not_xmlns in Hk. cbn [fst] in Hk.
  rewrite String.eqb_sym. exact Hk.
Qed.

Lemma attrs_ok_forced (a : list (string * string)) :
  forallb Xml.not_xmlns a = true -> Spec.attrs_ok a = true ->
  Spec.attrs_ok (attrib_set "xmlns" SF_NS a) = true.
Proof.
  intros Hx Hok. destruct (attrs_ok_facts a Hok) as [Hall Hn].
  rewrite attrib_set_absent by exact Hx. unfold Spec.attrs_ok.
  rewrite forallb_app, Hall, nodup_keys_forced by assumption.
  reflexivity.
Qed.

Lemma has_content_set_attrib (a : list (string * string)) (e : element) :
  has_content (set_attrib a e) = has_content e.
Proof. destruct e; reflexivity. Qed.

Lemma body_written_set_attrib (a : list (string * string)) (e : element) :
  Spec.body_written (set_attrib a e) = Spec.body_written e.
Proof. destruct e; reflexivity. Qed.

Lemma tail_written_set_attrib (a : list (string * string)) (e : element) :
  Spec.tail_written (set_attrib a e) = Spec.tail_written e.
Proof. destruct e; reflexivity. Qed.

Lemma canonical_facts (xdoc : ElementTree) :
  Spec.canonical xdoc = true ->
  Spec.printable (getroot xdoc) = true
  /\ Spec.no_xmlns (getroot xdoc) = true
  /\ Spec.tail_written (getroot xdoc)
     = (if has_content (getroot xdoc) then nl else EmptyString).
Proof.
  unfold Spec.canonical. intros H.
  apply andb_true_iff in H as [H H3]. apply andb_true_iff in H as [H1 H2].
  apply String.eqb_eq in H3. auto.
Qed.

(** The root as the serializer leaves it is printable, and nothing but
    blanks follows it. *)
Lemma forced_root_printable (xdoc : ElementTree) :
  Spec.canonical xdoc = true ->
  Spec.printable (getroot (force_xmlns xdoc)) = true
  /\ Xml.forallb_string Xml.is_ws
       (Spec.tail_written (getroot (force_xmlns xdoc))) = true.
Proof.
  intros H. destruct (canonical_facts xdoc H) as (Hp & Hx & Ht).
  rewrite force_xmlns_root, tail_written_set_attrib, Ht.
  split; [|now destruct (has_content (getroot xdoc))].
  destruct (printable_facts _ Hp) as (Hname & Hattrs & Hcontent).
  rewrite no_xmlns_unfold in Hx. apply andb_true_iff in Hx as [Hxa _].
  rewrite printable_unfold in Hp |- *. rewrite has_content_set_attrib.
  destruct (getroot xdoc) as [g n a x cs t]. cbn [tag attrib text children set_attrib] in *.
  destruct (Py.contains SF_NS g); [|exact Hp].
  rewrite Hname, (attrs_ok_forced a Hxa Hattrs).
  rewrite Hname, Hattrs in Hp. exact Hp.
Qed.

(** Serializing the tree read back from the output forces the same
    attributes on the root. *)
Lemma forced_attrib_again (root : element) :
  XPath.is_ncname (local_tag (tag root)) = true ->
  forallb Xml.not_xmlns (attrib root) = true ->
  let root' := getroot (force_xmlns (mkTree root)) in
  attrib (getroot (force_xmlns (mkTree (Spec.norm EmptyString root'))))
  = attrib root'
  /\ Xml.forallb_string Spec.not_rbrace
       (Spec.ns_inside EmptyString (attrib root')) = true.
Proof.
  intros Hname Hxa. cbv zeta. rewrite !force_xmlns_root. cbn [getroot].
  destruct root as [g n a x cs t]. cbn [tag attrib set_attrib] in *.
  rewrite (norm_unfold EmptyString). cbn [tag attrib set_attrib].
  destruct (Py.contains SF_NS g) eqn:E.
  - rewrite attrib_get_set, filter_attrib_set by exact Hxa.
    rewrite qualified_with_namespace. unfold Spec.ns_inside.
    rewrite attrib_get_set. split; reflexivity.
  - rewrite (attrib_get_absent a Hxa), (filter_all _ _ Hxa).
    cbn [Xml.qualify]. rewrite (ncname_without_namespace _ Hname).
    unfold Spec.ns_inside. rewrite (attrib_get_absent a Hxa).
    split; reflexivity.
Qed.

(** For a canonical document, the parser reads the serializer's output and
    the tree it builds is serialized to the same output. *)
Lemma round_trip (xdoc : ElementTree) :
  Spec.canonical xdoc = true ->
  Xml.parse (snd (salesforce_encoding xdoc))
  = Some (Spec.normalize (fst (salesforce_encoding xdoc)))
  /\ snd (salesforce_encoding (Spec.normalize (fst (salesforce_encoding xdoc))))
     = snd (salesforce_encoding xdoc).
Proof.
  intros H. destruct (forced_root_printable xdoc H) as [Hp' Hws].
  destruct (canonical_facts xdoc H) as (Hp & Hx & Ht).
  destruct (printable_facts _ Hp) as (Hname & Hattrs & Hcontent).
  pose proof Hx as Hx'. rewrite no_xmlns_unfold in Hx'.
  apply andb_true_iff in Hx' as [Hxa Hxcs].
  split.
  - rewrite salesforce_encoding_render. unfold salesforce_encoding. cbn [fst].
    now apply parse_render_document.
  - rewrite !salesforce_encoding_render. f_equal.
    unfold salesforce_encoding, Spec.normalize. cbn [fst getroot].
    destruct xdoc as [root]. cbn [getroot] in *.
    destruct (forced_attrib_again root Hname Hxa) as [Hattr Hns].
    cbv zeta in Hattr, Hns.
    set (root' := getroot (force_xmlns (mkTree root))) in *.
    assert (Hroot' : root' = set_attrib (attrib root') root).
    { unfold root'. rewrite force_xmlns_root. cbn [getroot].
      destruct root; reflexivity. }
    assert (Hname' : local_tag (tag root') = local_tag (tag root))
      by (rewrite Hroot'; destruct root; reflexivity).
    assert (Hkids : children root' = children root)
      by (rewrite Hroot'; destruct root; reflexivity).
    assert (Hhc : has_content root' = has_content root)
      by (rewrite Hroot'; apply has_content_set_attrib).
    set (N := Spec.norm EmptyString root') in *.
    assert (Hbody : Spec.body_written N = Spec.body_written root').
    { apply body_written_norm; rewrite ?Hname', ?Hkids, ?Hhc; auto.
      - apply All_intro. now apply writes_back_all.
      - intros Hc. now apply Hcontent. }
    assert (HF : getroot (force_xmlns (mkTree N))
                 = set_attrib (attrib root') N).
    { rewrite <- Hattr. rewrite force_xmlns_root. cbn [getroot].
      destruct N; reflexivity. }
    rewrite HF, !render_split, !head_written_body.
    rewrite body_written_set_attrib, Hbody, tail_written_set_attrib.
    unfold open_tag.
    replace (tag (set_attrib (attrib root') N)) with (tag N)
      by (destruct N; reflexivity).
    replace (attrib (set_attrib (attrib root') N)) with (attrib root')
      by (destruct N; reflexivity).
    assert (Htail : Spec.tail_written N = Spec.tail_written root').
    { rewrite Hroot', tail_written_set_attrib, Ht.
      unfold Spec.tail_written, N. rewrite has_content_norm, Hhc.
      rewrite norm_unfold. cbn [tail]. reflexivity. }
    assert (Hlocal : local_tag (tag N) = local_tag (tag root'))
      by (unfold N; apply local_tag_norm; rewrite ?Hname'; assumption).
    now rewrite Htail, Hlocal.
Qed.

(** ** Zero removals *)

Lemma prune_unfold (res : list XPath.position) (p : XPath.position)
  (e : element) :
  XPath.prune res p e
  = set_children (XPath.prune_nodes res p 0 (children e)) e.
Proof. destruct e; reflexivity. Qed.

Lemma prune_nil (e : element) : forall p, XPath.prune [] p e = e.
Proof.
  induction e as [g n a x cs t IH] using element_induction.
  intros p. rewrite prune_unfold. cbn [children set_children]. f_equal.
  generalize 0. induction cs as [|[c|c] cs IHcs]; intros i; [reflexivity| |].
  - destruct IH as [Hc Hcs].
    change (XPath.prune_nodes [] p i (NElem c :: cs))
      with (NElem (XPath.prune [] (p ++ [i])%list c)
            :: XPath.prune_nodes [] p (S i) cs).
    now rewrite Hc, (IHcs Hcs).
  - change (XPath.prune_nodes [] p i (NComment c :: cs))
      with (NComment c :: XPath.prune_nodes [] p (S i) cs).
    now rewrite (IHcs IH).
Qed.

Lemma remove_nothing (xdoc : ElementTree) :
  Task.remove_all [] xdoc = Task.Ok xdoc.
Proof.
  unfold Task.remove_all. cbn [XPath.selected existsb].
  rewrite prune_nil. now destruct xdoc.
Qed.

(** * Round trips *)







(** * Further properties of the module *)

(** ** [escape] *)

Lemma escaped_app (a b : string) :
  Spec.escaped (a ++ b) = Spec.escaped a ++ Spec.escaped b.
Proof.
  induction a as [|c a IH]; [reflexivity|].
  cbn [append Spec.escaped]. now rewrite IH, append_assoc.
Qed.

Lemma escaped_no_delimiter (t : string) :
  Xml.forallb_string (fun c => negb (Props.is_delimiter c)) (Spec.escaped t)
  = true.
Proof.
  induction t as [|c t IH]; [reflexivity|].
  cbn [Spec.escaped]. rewrite forallb_string_app, IH, andb_true_r.
  unfold Spec.esc_char, Props.is_delimiter.
  destruct (Ascii.eqb c "'") eqn:E1; [reflexivity|].
  destruct (Ascii.eqb c "034") eqn:E2; [reflexivity|].
  destruct (Ascii.eqb c "&") eqn:E3; [reflexivity|].
  destruct (Ascii.eqb c "<") eqn:E4; [reflexivity|].
  destruct (Ascii.eqb c ">") eqn:E5; [reflexivity|].
  cbn. now rewrite E1, E2, E4, E5.
Qed.

(** X1: the text written for an element can be read back: replacing the
    entity references in [escape]'s result gives the original text, so two
    different texts are never written alike; and the result holds none of
    the characters [<], [>], the apostrophe and the double quote. *)
Theorem escape_reversible (t : string) :
  Xml.unescape (Py.escape t entities) = Some t
  /\ (forall t', Py.escape t' entities = Py.escape t entities -> t' = t)
  /\ Xml.forallb_string (fun c => negb (Props.is_delimiter c))
       (Py.escape t entities) = true.
Proof.
  rewrite escape_escaped. split; [apply unescape_escaped|]. split.
  - intros t' H. rewrite escape_escaped in H.
    pose proof (unescape_escaped t') as H'. rewrite H, unescape_escaped in H'.
    now injection H'.
  - apply escaped_no_delimiter.
Qed.

Lemma escaped_plain (t : string) :
  Xml.forallb_string (fun c => negb (Props.is_special c)) t = true ->
  Spec.escaped t = t.
Proof.
  induction t as [|c t IH]; [reflexivity|].
  cbn [Xml.forallb_string Spec.escaped]. intros H.
  apply andb_true_iff in H as [Hc Ht]. rewrite (IH Ht).
  unfold Props.is_special, Props.is_delimiter in Hc.
  apply negb_true_iff in Hc.
  apply orb_false_elim in Hc as [E3 Hc]. apply orb_false_elim in Hc as [Hc E2].
  apply orb_false_elim in Hc as [Hc E1]. apply orb_false_elim in Hc as [E4 E5].
  unfold Spec.esc_char. now rewrite E1, E2, E3, E4, E5.
Qed.

(** X2: [escape] works piece by piece, the escaped form of a concatenation
    being the concatenation of the escaped forms, and it returns unchanged a
    text that holds none of the five characters. *)
Theorem escape_piecewise (a b : string) :
  Py.escape (a ++ b) entities = Py.escape a entities ++ Py.escape b entities
  /\ (Xml.forallb_string (fun c => negb (Props.is_special c)) a = true ->
      Py.escape a entities = a).
Proof.
  rewrite !escape_escaped. split; [apply escaped_app | apply escaped_plain].
Qed.

(** ** The local name of a tag *)

Lemma contains_char_found (c : ascii) (s : string) :
  Xml.forallb_string (fun x => negb (Ascii.eqb x c)) s = false ->
  Py.contains (String c EmptyString) s = true.
Proof.
  induction s as [|x s IH]; [discriminate|].
  cbn [Xml.forallb_string]. intros H. rewrite contains_unfold.
  cbn [String.prefix]. destruct (ascii_dec c x) as [->|N].
  - now destruct s.
  - apply IH. destruct (Ascii.eqb x c) eqn:E; [|exact H].
    apply Ascii.eqb_eq in E. now elim N.
Qed.

Lemma split_pieces (sep : ascii) (s : string) :
  Forall (fun p => Xml.forallb_string (fun x => negb (Ascii.eqb x sep)) p = true)
    (Py.split sep s).
Proof.
  induction s as [|x s IH]; cbn [Py.split].
  - now constructor.
  - destruct (Ascii.eqb x sep) eqn:E.
    + now constructor.
    + destruct (Py.split sep s) as [|p ps].
      * constructor; [cbn; now rewrite E | constructor].
      * inversion IH as [|? ? Hp Hps]; subst.
        constructor; [cbn; now rewrite E, Hp | exact Hps].
Qed.

Lemma split_nonempty (sep : ascii) (s : string) : Py.split sep s <> [].
Proof.
  destruct s as [|x s]; cbn; [discriminate|].
  destruct (Ascii.eqb x sep); [discriminate|].
  destruct (Py.split sep s); discriminate.
Qed.

Lemma split_length (sep : ascii) (s : string) :
  Xml.forallb_string (fun x => negb (Ascii.eqb x sep)) s = false ->
  2 <= List.length (Py.split sep s).
Proof.
  induction s as [|x s IH]; [discriminate|].
  cbn [Xml.forallb_string Py.split]. destruct (Ascii.eqb x sep) eqn:E.
  - intros _. pose proof (split_nonempty sep s) as H.
    destruct (Py.split sep s); cbn; [now elim H | lia].
  - cbn [negb andb]. intros H. specialize (IH H).
    destruct (Py.split sep s) as [|p ps]; cbn in *; lia.
Qed.

Lemma local_tag_no_rbrace (tag : string) :
  Xml.forallb_string Spec.not_rbrace (local_tag tag) = true.
Proof.
  unfold local_tag.
  destruct (Xml.forallb_string Spec.not_rbrace tag) eqn:E.
  - now rewrite (contains_char_false "}" tag E).
  - rewrite (contains_char_found "}" tag E).
    pose proof (split_pieces "}" tag) as H.
    destruct (Py.split "}" tag) as [|p [|q ps]]; try reflexivity.
    inversion H as [|? ? _ H']. inversion H' as [|? ? Hq _]. exact Hq.
Qed.

Lemma local_tag_idem (tag : string) :
  local_tag (local_tag tag) = local_tag tag.
Proof.
  unfold local_tag at 1.
  now rewrite (contains_char_false "}" _ (local_tag_no_rbrace tag)).
Qed.

(** X3: the index the serializer takes after splitting a tag at the closing
    brace is always in range, and the name it writes never holds a closing
    brace; a tag without brace is written as it is, and taking the local
    name twice changes nothing. *)
Theorem local_tag_in_range (tag : string) :
  (if Py.contains "}" tag
   then 2 <= List.length (Py.split "}" tag)
   else local_tag tag = tag)
  /\ Py.contains "}" (local_tag tag) = false
  /\ local_tag (local_tag tag) = local_tag tag.
Proof.
  assert (Hno : Py.contains "}" (local_tag tag) = false)
    by (apply contains_char_false, local_tag_no_rbrace).
  split; [|split; [exact Hno|]].
  - destruct (Py.contains "}" tag) eqn:E.
    + apply split_length.
      destruct (Xml.forallb_string (fun x => negb (Ascii.eqb x "}")) tag) eqn:F;
        [|reflexivity].
      rewrite (contains_char_false "}" tag F) in E. discriminate.
    + unfold local_tag. now rewrite E.
  - apply local_tag_idem.
Qed.

(** ** What the output does not depend on *)

Lemma render_nodes_map (h : node -> node) (cs : list node) :
  All (fun c => exists c', h (NElem c) = NElem c' /\ render c' = render c) cs ->
  (forall c, exists c', h (NComment c) = NComment c'
                        /\ render_comment c' = render_comment c) ->
  render_nodes (map h cs) = render_nodes cs.
Proof.
  intros Hall Hcom. induction cs as [|[c|c] cs IH]; [reflexivity| |].
  - destruct Hall as [(c' & E & Hc) Hcs]. cbn [map]. rewrite E.
    change (render c' ++ render_nodes (map h cs) = render c ++ render_nodes cs).
    now rewrite Hc, (IH Hcs).
  - destruct (Hcom c) as (c' & E & Hc). cbn [map]. rewrite E.
    change (render_comment c' ++ render_nodes (map h cs)
            = render_comment c ++ render_nodes cs).
    now rewrite Hc, (IH Hall).
Qed.

Lemma has_content_children (g g' : string) (n n' a a' : list (string * string))
  (x x' : option string) (cs cs' : list node) (t t' : option string) :
  Py.truthy x = Py.truthy x' -> (cs = [] <-> cs' = []) ->
  has_content (mkElement g n a x cs t) = has_content (mkElement g' n' a' x' cs' t').
Proof.
  unfold has_content. cbn [text children]. intros -> [H1 H2].
  destruct cs, cs'; try reflexivity.
  - discriminate (H1 eq_refl).
  - discriminate (H2 eq_refl).
Qed.

Lemma map_nil_iff {A B : Type} (f : A -> B) (l : list A) :
  map f l = [] <-> l = [].
Proof. destruct l; cbn; split; intros H; try reflexivity; discriminate. Qed.

Lemma or_else_blank (o : option string) (d : string) :
  or_else (Props.blank_to_none o) d = or_else o d.
Proof. now destruct o as [[|c s]|]. Qed.

Lemma render_erase (e : element) : render (Props.erase e) = render e.
Proof.
  induction e as [g n a x cs t IH] using element_induction.
  cbn [Props.erase tag attrib text children tail].
  rewrite !render_unfold.
  rewrite (has_content_children g g [] n a a (Props.blank_to_none x) x _ cs
             (Props.blank_to_none t) t);
    [|now destruct x as [[|c s]|] | apply map_nil_iff].
  unfold open_tag, close_tag, escaped_text.
  cbn [tag attrib text children tail]. rewrite or_else_blank.
  rewrite render_nodes_map.
  - now destruct x as [[|c s]|].
  - clear -IH. induction cs as [|[c|c] cs IHcs]; cbn; auto.
    destruct IH as [Hc Hcs]. split; [|now apply IHcs]. eauto.
  - intros c. eexists. split; [reflexivity|].
    unfold render_comment, str_comment. cbn [ctext ctail].
    now rewrite or_else_blank.
Qed.

(** X4: the namespace declarations of the tree, announced to the loop as
    events of their own, and the difference between an absent and an empty
    text or tail never show in the output: the tree without declarations and
    with every empty text or tail made absent, at every depth, is serialized
    to the same text. *)
Theorem declarations_and_blanks_ignored (xdoc : ElementTree) :
  snd (salesforce_encoding (mkTree (Props.erase (getroot xdoc))))
  = snd (salesforce_encoding xdoc).
Proof.
  rewrite !salesforce_encoding_render, !force_xmlns_root. cbn [getroot].
  f_equal. destruct xdoc as [root]. cbn [getroot].
  replace (tag (Props.erase root)) with (tag root) by (destruct root; reflexivity).
  replace (attrib (Props.erase root)) with (attrib root)
    by (destruct root; reflexivity).
  set (A := if Py.contains SF_NS (tag root)
            then attrib_set "xmlns" SF_NS (attrib root) else attrib root).
  replace (set_attrib A (Props.erase root)) with (Props.erase (set_attrib A root))
    by (destruct root; reflexivity).
  apply render_erase.
Qed.

Lemma render_bare (e : element) : render (Props.bare e) = render e.
Proof.
  induction e as [g n a x cs t IH] using element_induction.
  cbn [Props.bare tag nsdecl attrib text children tail].
  rewrite !render_unfold.
  rewrite (has_content_children (local_tag g) g n n a a x x _ cs t t);
    [|reflexivity | apply map_nil_iff].
  unfold open_tag, close_tag, escaped_text.
  cbn [tag attrib text children tail]. rewrite local_tag_idem.
  rewrite render_nodes_map; [reflexivity | |].
  - clear -IH. induction cs as [|[c|c] cs IHcs]; cbn; auto.
    destruct IH as [Hc Hcs]. split; [|now apply IHcs]. eauto.
  - intros c. eexists. split; reflexivity.
Qed.

(** X5: below the root, a tag reaches the output through its local name
    only: when every descendant's tag is replaced by its local name, whatever
    namespace it was in, the document is serialized to the same text, and the
    same holds of any element taken alone. *)
Theorem descendants_written_by_local_name (xdoc : ElementTree) :
  snd (salesforce_encoding
         (mkTree (set_children (map Props.bare_node (children (getroot xdoc)))
                    (getroot xdoc))))
  = snd (salesforce_encoding xdoc)
  /\ (forall e, emit (Props.bare e) = emit e).
Proof.
  split; [|intros e; rewrite !emit_render; apply render_bare].
  rewrite !salesforce_encoding_render, !force_xmlns_root. cbn [getroot].
  f_equal. destruct xdoc as [[g n a x cs t]].
  cbn [getroot set_children tag attrib children set_attrib].
  set (A := if Py.contains SF_NS g then attrib_set "xmlns" SF_NS a else a).
  rewrite !render_unfold.
  rewrite (has_content_children g g n n A A x x (map Props.bare_node cs) cs t t);
    [|reflexivity | apply map_nil_iff].
  unfold open_tag, close_tag, escaped_text.
  cbn [tag attrib text children tail].
  rewrite render_nodes_map; [reflexivity | |].
  - apply All_intro. intros c. exists (Props.bare c). split; [reflexivity|].
    apply render_bare.
  - intros c. eexists. split; reflexivity.
Qed.

(** ** Children and comments *)

Lemma concat_empty_cons (x : string) (l : list string) :
  String.concat EmptyString (x :: l) = x ++ String.concat EmptyString l.
Proof.
  destruct l as [|y l]; cbn [String.concat]; [now rewrite append_nil_r|].
  reflexivity.
Qed.

Lemma render_nodes_concat (cs : list node) :
  render_nodes cs = String.concat EmptyString (map Props.node_out cs).
Proof.
  induction cs as [|[c|c] cs IH]; [reflexivity| |];
    cbn [map]; rewrite concat_empty_cons, <- IH.
  - cbn [Props.node_out]. now rewrite emit_render.
  - change (render_nodes (NComment c :: cs))
      with (render_comment c ++ render_nodes cs).
    unfold render_comment, str_comment, Props.node_out, or_else.
    rewrite !append_assoc. now destruct (ctail c) as [[|x s]|].
Qed.


(** ** Removal *)

Lemma render_nodes_app (a b : list node) :
  render_nodes (a ++ b) = render_nodes a ++ render_nodes b.
Proof.
  rewrite !render_nodes_concat, map_app.
  induction (map Props.node_out a) as [|x l IH]; [reflexivity|].
  cbn [app]. now rewrite !concat_empty_cons, IH, append_assoc.
Qed.

Lemma selected_length (res : list XPath.position) (p : XPath.position) :
  (forall q, In q res -> List.length q <> List.length p) ->
  XPath.selected res p = false.
Proof.
  intros H. unfold XPath.selected. induction res as [|q res IH]; [reflexivity|].
  cbn [existsb]. rewrite IH by (intros q' Hq'; apply H; now right).
  unfold XPath.position_eqb. destruct (list_eq_dec Nat.eq_dec p q) as [->|_].
  - now elim (H q (or_introl eq_refl)).
  - reflexivity.
Qed.

Lemma selected_in (res : list XPath.position) (p : XPath.position) :
  In p res -> XPath.selected res p = true.
Proof.
  intros H. unfold XPath.selected. apply existsb_exists. exists p.
  split; [exact H|]. unfold XPath.position_eqb.
  now destruct (list_eq_dec Nat.eq_dec p p).
Qed.

Lemma prune_nodes_cons_elem (res : list XPath.position) (p : XPath.position)
  (i : nat) (c : element) (cs : list node) :
  XPath.prune_nodes res p i (NElem c :: cs)
  = if XPath.selected res (p ++ [i])%list
    then XPath.prune_nodes res p (S i) cs
    else NElem (XPath.prune res (p ++ [i])%list c)
         :: XPath.prune_nodes res p (S i) cs.
Proof. reflexivity. Qed.

Lemma prune_nodes_cons_comment (res : list XPath.position) (p : XPath.position)
  (i : nat) (c : comment) (cs : list node) :
  XPath.prune_nodes res p i (NComment c :: cs)
  = NComment c :: XPath.prune_nodes res p (S i) cs.
Proof. reflexivity. Qed.

(** Positions no longer than [p] select nothing below [p]. *)
Lemma prune_short (res : list XPath.position) (e : element) :
  forall p,
    (forall q, In q res -> List.length q <= List.length p) ->
    XPath.prune res p e = e.
Proof.
  induction e as [g n a x cs t IH] using element_induction.
  intros p H. rewrite prune_unfold. cbn [children set_children]. f_equal.
  generalize 0. induction cs as [|[c|c] cs IHcs]; intros i; [reflexivity| |].
  - destruct IH as [Hc Hcs]. rewrite prune_nodes_cons_elem.
    rewrite selected_length.
    + rewrite Hc, (IHcs Hcs); [reflexivity|].
      intros q Hq. specialize (H q Hq). rewrite length_app. cbn. lia.
    + intros q Hq. specialize (H q Hq). rewrite length_app. cbn. lia.
  - rewrite prune_nodes_cons_comment. now rewrite (IHcs IH).
Qed.

Lemma prune_nodes_one (target : nat) (c : element) (cs2 cs1 : list node) :
  forall k,
    target = k + List.length cs1 ->
    XPath.prune_nodes [[target]] [] k (cs1 ++ NElem c :: cs2)
    = (cs1 ++ cs2)%list.
Proof.
  assert (Hshort : forall j e, XPath.prune [[target]] [j] e = e).
  { intros j e. apply prune_short. intros q [<-|[]]. cbn. lia. }
  assert (Hrest : forall k, target < k ->
                    XPath.prune_nodes [[target]] [] k cs2 = cs2).
  { induction cs2 as [|[d|d] cs2 IH]; intros k Hk; [reflexivity| |].
    - rewrite prune_nodes_cons_elem. cbn [app].
      replace (XPath.selected [[target]] [k]) with false.
      + now rewrite Hshort, IH by lia.
      + cbn. unfold XPath.position_eqb.
        destruct (list_eq_dec Nat.eq_dec [k] [target]) as [E|_];
          [injection E; lia | reflexivity].
    - rewrite prune_nodes_cons_comment. now rewrite IH by lia. }
  induction cs1 as [|[d|d] cs1 IH]; intros k Hk; cbn [app List.length] in *.
  - rewrite prune_nodes_cons_elem. cbn [app].
    replace (XPath.selected [[target]] [k]) with true.
    + apply Hrest. lia.
    + cbn. unfold XPath.position_eqb.
      destruct (list_eq_dec Nat.eq_dec [k] [target]) as [_|N];
        [reflexivity | elim N; f_equal; lia].
  - rewrite prune_nodes_cons_elem. cbn [app].
    replace (XPath.selected [[target]] [k]) with false.
    + rewrite Hshort, (IH (S k)) by lia. reflexivity.
    + cbn. unfold XPath.position_eqb.
      destruct (list_eq_dec Nat.eq_dec [k] [target]) as [E|_];
        [injection E; lia | reflexivity].
  - rewrite prune_nodes_cons_comment. now rewrite (IH (S k)) by lia.
Qed.


Lemma select_in_unfold (pending : list (list XPath.step)) (p : XPath.position)
  (e : element) :
  XPath.select_in pending p e
  = ((if XPath.selects pending e then [p] else [])
     ++ Props.select_nodes (XPath.advance pending e) p 0 (children e))%list.
Proof. destruct e; reflexivity. Qed.

Lemma matches_tag (t : XPath.test) (e e' : element) :
  tag e = tag e' -> XPath.matches t e = XPath.matches t e'.
Proof. intros H. destruct t; cbn; [reflexivity | now rewrite H]. Qed.

Lemma selects_tag (pending : list (list XPath.step)) (e e' : element) :
  tag e = tag e' -> XPath.selects pending e = XPath.selects pending e'.
Proof.
  intros H. unfold XPath.selects.
  induction pending as [|st pending IH]; [reflexivity|].
  cbn [existsb]. rewrite IH.
  destruct st as [|[ax t] [|s st]]; try reflexivity.
  now rewrite (matches_tag t e e' H).
Qed.

Lemma advance_tag (pending : list (list XPath.step)) (e e' : element) :
  tag e = tag e' -> XPath.advance pending e = XPath.advance pending e'.
Proof.
  intros H. unfold XPath.advance.
  induction pending as [|st pending IH]; [reflexivity|].
  cbn [flat_map]. rewrite IH.
  destruct st as [|[ax t] rest]; [reflexivity|].
  now rewrite (matches_tag t e e' H).
Qed.

Lemma prune_tag (res : list XPath.position) (p : XPath.position) (e : element) :
  tag (XPath.prune res p e) = tag e.
Proof. rewrite prune_unfold. now destruct e. Qed.

(** Once every element selected below [p] has been removed, and the element
    at [p] itself was not selected, the same paths select nothing. *)
Lemma select_after_prune (res : list XPath.position) (e : element) :
  forall pending p q,
    (forall pos, In pos (XPath.select_in pending p e) -> In pos res) ->
    XPath.selects pending e = false ->
    XPath.select_in pending q (XPath.prune res p e) = [].
Proof.
  induction e as [g n a x cs t IH] using element_induction.
  intros pending p q Hres Hsel.
  rewrite select_in_unfold.
  rewrite (selects_tag pending _ _ (prune_tag res p _)), Hsel.
  rewrite (advance_tag pending _ _ (prune_tag res p _)).
  rewrite prune_unfold. cbn [children set_children app].
  rewrite select_in_unfold, Hsel in Hres. cbn [children app] in Hres.
  set (pend := XPath.advance pending (mkElement g n a x cs t)) in *.
  clearbody pend. clear Hsel.
  revert Hres. generalize 0 at 1 3. generalize 0.
  induction cs as [|[c|c] cs IHcs]; intros j i Hres; [reflexivity| |].
  - destruct IH as [Hc Hcs].
    change (Props.select_nodes pend p i (NElem c :: cs))
      with (XPath.select_in pend (p ++ [i])%list c
            ++ Props.select_nodes pend p (S i) cs)%list in Hres.
    assert (Hrest : forall pos,
               In pos (Props.select_nodes pend p (S i) cs) -> In pos res)
      by (intros pos Hpos; apply Hres, in_or_app; now right).
    rewrite prune_nodes_cons_elem.
    destruct (XPath.selected res (p ++ [i])%list) eqn:Esel.
    + now apply IHcs.
    + change (Props.select_nodes pend q j
                (NElem (XPath.prune res (p ++ [i])%list c)
                 :: XPath.prune_nodes res p (S i) cs))
        with (XPath.select_in pend (q ++ [j])%list (XPath.prune res (p ++ [i])%list c)
              ++ Props.select_nodes pend q (S j)
                   (XPath.prune_nodes res p (S i) cs))%list.
      rewrite (IHcs Hcs (S j) (S i) Hrest), app_nil_r.
      apply Hc.
      * intros pos Hpos. apply Hres, in_or_app. now left.
      * destruct (XPath.selects pend c) eqn:E; [|reflexivity].
        assert (Hin : In (p ++ [i])%list res).
        { apply Hres, in_or_app. left. rewrite select_in_unfold, E.
          now left. }
        apply selected_in in Hin. congruence.
  - rewrite prune_nodes_cons_comment.
    change (Props.select_nodes pend q j
              (NComment c :: XPath.prune_nodes res p (S i) cs))
      with (Props.select_nodes pend q (S j) (XPath.prune_nodes res p (S i) cs)).
    apply (IHcs IH). exact Hres.
Qed.

(** X8: for a query of the modelled fragment, once every element the query
    selected has been removed from its parent, the same query evaluated on
    the resulting tree selects nothing. *)
Theorem removal_is_complete
  (xdoc xdoc' : ElementTree) (query : string) (res : list XPath.position) :
  XPath.xpath xdoc query Task.namespaces = Some res ->
  Task.remove_all res xdoc = Task.Ok xdoc' ->
  XPath.xpath xdoc' query Task.namespaces = Some [].
Proof.
  unfold XPath.xpath, Task.remove_all.
  destruct (XPath.compile Task.namespaces query) as [steps|]; [|discriminate].
  intros Hres Hrm. injection Hres as <-.
  destruct (XPath.selected _ []) eqn:Esel; [discriminate|].
  injection Hrm as <-. cbn [getroot]. f_equal.
  apply select_after_prune; [auto|].
  destruct (XPath.selects [steps] (getroot xdoc)) eqn:E; [|reflexivity].
  assert (Hin : In [] (XPath.select_in [steps] [] (getroot xdoc)))
    by (rewrite select_in_unfold, E; now left).
  apply selected_in in Hin. congruence.
Qed.

(** X8 at the document of the scenario. *)
Lemma removal_is_complete_witness :
  XPath.xpath Spec.layout_tree "//ns:relatedLists" Task.namespaces = Some [[0]]
  /\ XPath.xpath
       (mkTree (XPath.prune [[0]] [] (getroot Spec.layout_tree)))
       "//ns:relatedLists" Task.namespaces = Some [].
Proof.
  split; [reflexivity|].
  exact (removal_is_complete Spec.layout_tree
           (mkTree (XPath.prune [[0]] [] (getroot Spec.layout_tree)))
           "//ns:relatedLists" [[0]] eq_refl eq_refl).
Defined.

(** ** The loops of the task *)

Lemma for_each_app {A : Type} (body : A -> Task.world -> Task.result unit * Task.world)
  (l1 l2 : list A) (w : Task.world) :
  Task.for_each body (l1 ++ l2) w
  = match Task.for_each body l1 w with
    | (Task.Ok _, w1) => Task.for_each body l2 w1
    | (Task.Raise e, w1) => (Task.Raise e, w1)
    end.
Proof.
  revert w. induction l1 as [|x l1 IH]; intros w; [reflexivity|].
  cbn [app Task.for_each]. destruct (body x w) as [[u|e] w1]; [apply IH|].
  reflexivity.
Qed.


Lemma attrib_get_set_other (g f c : string) (fs : list (string * string)) :
  g <> f -> attrib_get g (attrib_set f c fs) = attrib_get g fs.
Proof.
  intros N. induction fs as [|[k v] fs IH]; cbn.
  - destruct (String.eqb f g) eqn:E; [|reflexivity].
    apply String.eqb_eq in E. now elim N.
  - destruct (String.eqb k f) eqn:E; cbn.
    + apply String.eqb_eq in E. subst k.
      destruct (String.eqb f g) eqn:E'; [|reflexivity].
      apply String.eqb_eq in E'. now elim N.
    + now rewrite IH.
Qed.

Lemma names_attrib_set (f c c' : string) (fs : list (string * string)) :
  attrib_get f fs = Some c ->
  Props.names (attrib_set f c' fs) = Props.names fs.
Proof.
  unfold Props.names. induction fs as [|[k v] fs IH]; cbn; [discriminate|].
  destruct (String.eqb k f) eqn:E; cbn; [reflexivity|].
  intros H. now rewrite IH.
Qed.

Lemma attrib_get_in (f c : string) (fs : list (string * string)) :
  attrib_get f fs = Some c -> In f (Props.names fs).
Proof.
  unfold Props.names. induction fs as [|[k v] fs IH]; cbn; [discriminate|].
  destruct (String.eqb k f) eqn:E.
  - apply String.eqb_eq in E. now left.
  - intros H. right. now apply IH.
Qed.

(** The outcomes of [process_file]. *)
Lemma process_file_cases (step : Task.step) (f : string) (w : Task.world) :
  (exists e n,
      Task.process_file step f w
      = (Task.Raise e,
         Task.mkWorld (Task.files w) (Task.log w ++ n) (Task.writes w)))
  \/ (exists orig xdoc n,
         Task.read_file f w = Some orig
         /\ Task.process_file step f w
            = (Task.Ok tt,
               Task.mkWorld
                 (attrib_set f (snd (salesforce_encoding xdoc)) (Task.files w))
                 (Task.log w ++ n)
                 (Task.writes w ++ [(f, snd (salesforce_encoding xdoc))]))).
Proof.
  unfold Task.process_file.
  change (Task.read_file f (Task.info ("Checking " ++ f) w))
    with (Task.read_file f w).
  destruct (Task.read_file f w) as [orig|];
    [|left; eexists; eexists; reflexivity].
  destruct (Xml.parse orig) as [root|];
    [|left; eexists; eexists; reflexivity].
  destruct (XPath.xpath root (Task.xpath step) Task.namespaces) as [res|];
    [|left; eexists; eexists; reflexivity].
  destruct (Task.remove_all res root) as [root'|err].
  - right. rewrite bytes_ne_str. exists orig, root'. eexists.
    split; [reflexivity|].
    unfold Task.write_file, Task.info. cbn [Task.files Task.log Task.writes].
    rewrite <- !app_assoc. reflexivity.
  - left. exists err. eexists. unfold Task.info.
    cbn [Task.files Task.log Task.writes]. rewrite <- app_assoc. reflexivity.
Qed.



(** ** What a run leaves behind *)

Lemma extends_refl (w : Task.world) : Props.extends w w.
Proof.
  split; [reflexivity|]. split.
  - exists []. now rewrite app_nil_r.
  - exists []. rewrite app_nil_r. repeat split; constructor.
Qed.

Lemma extends_trans (w1 w2 w3 : Task.world) :
  Props.extends w1 w2 -> Props.extends w2 w3 -> Props.extends w1 w3.
Proof.
  intros (N1 & (l1 & L1) & (ws1 & W1 & D1 & F1))
         (N2 & (l2 & L2) & (ws2 & W2 & D2 & F2)).
  split; [congruence|]. split.
  - exists (l1 ++ l2)%list. now rewrite L2, L1, app_assoc.
  - exists (ws1 ++ ws2)%list. rewrite W2, W1, app_assoc.
    split; [reflexivity|]. split.
    + apply Forall_app. now split.
    + apply Forall_app. split; [exact F1|]. now rewrite <- N1.
Qed.

Lemma extends_info (msg : string) (w : Task.world) :
  Props.extends w (Task.info msg w).
Proof.
  split; [reflexivity|]. split.
  - now exists [msg].
  - exists []. cbn. rewrite app_nil_r. repeat split; constructor.
Qed.

Lemma process_file_extends (step : Task.step) (f : string) (w : Task.world) :
  Props.extends w (snd (Task.process_file step f w)).
Proof.
  destruct (process_file_cases step f w) as
      [(e & n & E)|(orig & xdoc & n & Hread & E)]; rewrite E; cbn [snd].
  - split; [reflexivity|]. split; [now exists n|].
    exists []. cbn. rewrite app_nil_r. repeat split; constructor.
  - split; [now apply (names_attrib_set f orig)|]. split; [now exists n|].
    eexists. split; [reflexivity|]. split.
    + constructor; [|constructor]. cbn [snd].
      rewrite salesforce_encoding_render. eauto.
    + constructor; [|constructor]. cbn [fst]. now apply (attrib_get_in f orig).
Qed.

Lemma for_each_extends {A : Type}
  (body : A -> Task.world -> Task.result unit * Task.world) (l : list A) :
  (forall x w, Props.extends w (snd (body x w))) ->
  forall w, Props.extends w (snd (Task.for_each body l w)).
Proof.
  intros Hbody. induction l as [|x l IH]; intros w; [apply extends_refl|].
  cbn [Task.for_each]. pose proof (Hbody x w) as Hx.
  destruct (body x w) as [[u|e] w1]; cbn [snd] in *.
  - apply (extends_trans w w1); [exact Hx | apply IH].
  - exact Hx.
Qed.

Lemma run_extends
  (glob : option string -> string -> list (string * string) -> list string)
  (kwargs : Task.options) (w : Task.world) :
  Props.extends w (snd (Task.run glob kwargs w)).
Proof.
  unfold Task.run. destruct (Task._init_options kwargs) as [self|e];
    [|apply extends_refl].
  unfold Task._run_task.
  set (w0 := match Task.chdir self with
             | Some (String _ _ as d) =>
                 Task.info ("Changing directory to " ++ d) w
             | _ => w
             end).
  apply (extends_trans w w0).
  { unfold w0. destruct (Task.chdir self) as [[|c d]|];
      auto using extends_refl, extends_info. }
  apply for_each_extends. intros step w1. unfold Task._process_element.
  eapply extends_trans; [apply extends_info|].
  apply for_each_extends. intros f w2. apply process_file_extends.
Qed.


Lemma process_file_frame (step : Task.step) (f g : string) (w : Task.world) :
  g <> f ->
  Task.read_file g (snd (Task.process_file step f w)) = Task.read_file g w.
Proof.
  intros N. destruct (process_file_cases step f w) as
      [(e & n & E)|(orig & xdoc & n & _ & E)]; rewrite E; cbn [snd].
  - reflexivity.
  - unfold Task.read_file. cbn [Task.files]. now apply attrib_get_set_other.
Qed.

Lemma for_each_frame (step : Task.step) (g : string) (fs : list string) :
  ~ In g fs ->
  forall w,
    Task.read_file g (snd (Task.for_each (Task.process_file step) fs w))
    = Task.read_file g w.
Proof.
  induction fs as [|f fs IH]; intros N w; [reflexivity|].
  cbn [Task.for_each].
  assert (Hf : g <> f) by (intros ->; apply N; now left).
  pose proof (process_file_frame step f g w Hf) as H.
  destruct (Task.process_file step f w) as [[u|e] w1]; cbn [snd] in *.
  - rewrite IH; [exact H|]. intros Hin. apply N. now right.
  - exact H.
Qed.



(** ** The root of a parsed document *)

Lemma forallb_filter {A : Type} (p : A -> bool) (l : list A) :
  forallb p (filter p l) = true.
Proof.
  induction l as [|x l IH]; [reflexivity|]. cbn [filter].
  destruct (p x) eqn:E; [cbn; now rewrite E|exact IH].
Qed.

Lemma parse_start_tag_attrib (ns s r : string) (st : Xml.start_tag) :
  Xml.parse_start_tag ns s = Some (st, r) ->
  forallb Xml.not_xmlns (Xml.st_attrib st) = true.
Proof.
  unfold Xml.parse_start_tag.
  destruct (Xml.strip_prefix "<" s) as [s1|]; [|discriminate].
  destruct (Xml.parse_name s1) as [[name s2]|]; [|discriminate].
  destruct (Xml.parse_attrs _ s2) as [[raw s3]|]; [|discriminate].
  destruct (negb (Xml.nodup_keys raw)); [discriminate|].
  destruct (attrib_get "xmlns" raw) as [[|c v]|]; [discriminate| |];
    intros H; injection H as <- _; apply forallb_filter.
Qed.

Lemma parse_element_root (fuel : nat) (ns s r : string) (e : element) :
  Xml.parse_element fuel ns s = Some (e, r) ->
  tail e = None /\ forallb Xml.not_xmlns (attrib e) = true.
Proof.
  destruct fuel as [|fuel]; [discriminate|]. rewrite parse_element_S.
  destruct (Xml.parse_start_tag ns s) as [[st s1]|] eqn:Est; [|discriminate].
  apply parse_start_tag_attrib in Est. cbv zeta.
  destruct (Xml.strip_prefix "/>" s1) as [s2|].
  { intros H. injection H as <- _. now split. }
  destruct (Xml.strip_prefix ">" s1) as [s2|]; [|discriminate].
  destruct (Xml.chardata s2) as [[txt s3]|]; [|discriminate].
  destruct (Xml.parse_nodes fuel (Xml.st_ns st) s3) as [[kids s4]|];
    [|discriminate].
  destruct (Xml.parse_end_tag (Xml.st_name st) s4) as [s5|]; [|discriminate].
  intros H. injection H as <- _. now split.
Qed.

Lemma parse_root (orig : string) (xdoc : ElementTree) :
  Xml.parse orig = Some xdoc ->
  tail (getroot xdoc) = None
  /\ forallb Xml.not_xmlns (attrib (getroot xdoc)) = true.
Proof.
  unfold Xml.parse.
  destruct (Xml.parse_element _ EmptyString _) as [[root s3]|] eqn:E;
    [|discriminate].
  apply parse_element_root in E.
  destruct (Xml.skip_ws s3); [|discriminate].
  intros H. injection H as <-. exact E.
Qed.



(** ** The output is well formed *)



(** ** The other attributes of the root *)

Lemma filter_attrib_set_any (v : string) (a : list (string * string)) :
  filter Xml.not_xmlns (attrib_set "xmlns" v a) = filter Xml.not_xmlns a.
Proof.
  induction a as [|[k w] a IH]; [reflexivity|].
  cbn [attrib_set]. destruct (String.eqb k "xmlns") eqn:E.
  - cbn [filter]. unfold Xml.not_xmlns. cbn [fst]. now rewrite E.
  - cbn [filter]. now rewrite IH.
Qed.

(** X15: forcing the namespace attribute on the root touches no other
    attribute: the attributes with another name are the same, with the same
    values and in the same order, after serialization as before. *)
Theorem forcing_keeps_other_attributes (xdoc : ElementTree) :
  let root' := getroot (fst (salesforce_encoding xdoc)) in
  filter Xml.not_xmlns (attrib root')
  = filter Xml.not_xmlns (attrib (getroot xdoc))
  /\ (forall k, k <> "xmlns" ->
        attrib_get k (attrib root') = attrib_get k (attrib (getroot xdoc))).
Proof.
  cbv zeta. unfold salesforce_encoding. cbn [fst]. rewrite force_xmlns_root.
  destruct (getroot xdoc) as [g n a x cs t]. cbn [tag attrib set_attrib].
  destruct (Py.contains SF_NS g).
  - split; [apply filter_attrib_set_any|].
    intros k N. apply attrib_get_set_other. exact N.
  - split; [reflexivity|]. intros k N. reflexivity.
Qed.
